(** * User management component (src/App.js): model and properties

    The component keeps all of its data in React state cells and changes
    them from event handlers.  A handler reads the cells of the render it
    was created in and queues updates; React applies the queue before the
    next render.  The model follows that shape: a [State] record for the
    cells, an [Update] per setter call, handlers as functions from the
    rendered [State] to the list of queued updates, and [commit] to apply
    the queue.

    Ids are JavaScript numbers holding integers, that is integer-valued
    binary64 numbers; an id is modelled by its value in [Z].  Comparing two
    of them is exact.  The one arithmetic operation the component does on
    ids, [maxId + 1], is a binary64 addition and rounds where the exact sum
    is not a binary64 number ([Js.add]).  Text fields are [string]. *)

From Stdlib Require Import ZArith String Ascii Sorted Lia.
From stdpp Require Import base list.

Local Open Scope string_scope.
Local Open Scope list_scope.
Local Open Scope Z_scope.

(** ** JavaScript primitives used by the component *)

Module Js.

(** Truthiness of a string: only the empty string is falsy. *)
Definition truthy (s : string) : bool :=
  match s with
  | EmptyString => false
  | String _ _ => true
  end.

(** [s.split(sep)] for a one-character separator: every occurrence of
    the separator ends a piece; the result is never empty. *)
Fixpoint split (sep : ascii) (s : string) : list string :=
  match s with
  | EmptyString => [EmptyString]
  | String c rest =>
      if Ascii.eqb c sep then EmptyString :: split sep rest
      else match split sep rest with
           | piece :: pieces => String c piece :: pieces
           | [] => [String c EmptyString]
           end
  end.

(** [pieces[0]] of a split; the array of a split is never empty, so the
    second branch is not reached from [split]. *)
Definition first_piece (pieces : list string) : string :=
  match pieces with
  | piece :: _ => piece
  | [] => EmptyString
  end.

(** [pieces[i]] or else the empty string: a missing or empty piece gives
    the empty string. *)
Definition index_or_empty (pieces : list string) (i : nat) : string :=
  match pieces !! i with
  | Some piece => piece
  | None => EmptyString
  end.

(** Relative index of [Array.prototype.slice]: a negative index counts
    from the end, and the result is clamped to [0, len]. *)
Definition clamp_index (len i : Z) : Z :=
  if i <? 0 then Z.max (len + i) 0 else Z.min i len.

(** [arr.slice(start, end)]. *)
Definition slice {A : Type} (arr : list A) (start stop : Z) : list A :=
  let len := Z.of_nat (length arr) in
  let k := clamp_index len start in
  let final := clamp_index len stop in
  take (Z.to_nat (Z.max (final - k) 0)) (drop (Z.to_nat k) arr).

(** [Math.ceil(a / b)] for integers [a >= 0] and [b > 0]. *)
Definition ceil_quot (a b : Z) : Z :=
  if a mod b =? 0 then a / b else a / b + 1.

(** [[...Array(n).keys()]]: the indices 0 .. n-1. *)
Definition keys (n : Z) : list Z := seqZ 0 n.

(** The binary64 number nearest to the integer [z], ties to the even
    significand (the rounding of every arithmetic operation on numbers).
    Integers up to 2^53 in size are binary64 numbers; a larger one keeps
    the 53 leading bits of its size.  ([z] is in the finite range.) *)
Definition round64 (z : Z) : Z :=
  let a := Z.abs z in
  if a <? 2 ^ 53 then z
  else
    let e := Z.log2 a - 52 in
    let q := a / 2 ^ e in
    let r := a mod 2 ^ e in
    let half := 2 ^ (e - 1) in
    let q' := if r <? half then q
              else if half <? r then q + 1
              else if Z.even q then q else q + 1 in
    Z.sgn z * (q' * 2 ^ e).

(** [a + b] for two integer-valued numbers. *)
Definition add (a b : Z) : Z := round64 (a + b).

End Js.

(** ** Data model *)

(** An item of the remote resource, with the fields the Loader reads. *)
Module RemoteUser.
Record t : Type := mk { id : Z; name : string; email : string }.
End RemoteUser.

(** A record of the Store. *)
Module User.
Record t : Type := mk {
  id : Z;
  firstName : string;
  lastName : string;
  email : string;
  department : string
}.
End User.

(** The form draft.  Its [id] is the blank string in Add mode and the
    number of the edited record in Edit mode: [None] stands for blank. *)
Module FormData.
Record t : Type := mk {
  id : option Z;
  firstName : string;
  lastName : string;
  email : string;
  department : string
}.

(** The draft with a blank id and four empty fields, as the handlers reset
    it. *)
Definition blank : t := mk None EmptyString EmptyString EmptyString EmptyString.
End FormData.

(** The state cells of [App] (the [useState] calls). *)
Record State : Type := mkState {
  users : list User.t;
  showModal : bool;
  formData : FormData.t;
  error : string;
  editing : bool;
  currentPage : Z
}.

Definition usersPerPage : Z := 5.

(** The state of the first render. *)
Definition initialState : State :=
  mkState [] false FormData.blank EmptyString false 1.

(** A queued setter call.  [setUsers] is called both with a value and with
    a function of the previous value. *)
Inductive Update : Type :=
| setUsers (v : list User.t)
| setUsersWith (f : list User.t -> list User.t)
| setShowModal (b : bool)
| setFormData (fd : FormData.t)
| setError (msg : string)
| setEditing (b : bool)
| setCurrentPage (p : Z).

Definition apply_update (s : State) (u : Update) : State :=
  match u with
  | setUsers v =>
      mkState v (showModal s) (formData s) (error s) (editing s) (currentPage s)
  | setUsersWith f =>
      mkState (f (users s)) (showModal s) (formData s) (error s) (editing s)
              (currentPage s)
  | setShowModal b =>
      mkState (users s) b (formData s) (error s) (editing s) (currentPage s)
  | setFormData fd =>
      mkState (users s) (showModal s) fd (error s) (editing s) (currentPage s)
  | setError msg =>
      mkState (users s) (showModal s) (formData s) msg (editing s) (currentPage s)
  | setEditing b =>
      mkState (users s) (showModal s) (formData s) (error s) b (currentPage s)
  | setCurrentPage p =>
      mkState (users s) (showModal s) (formData s) (error s) (editing s) p
  end.

(** Apply a handler's queue to the state it was rendered from. *)
Definition commit (s : State) (queue : list Update) : State :=
  fold_left apply_update queue s.

(** An event: run the handler of the current render, then commit. *)
Definition dispatch (handler : State -> list Update) (s : State) : State :=
  commit s (handler s).

(** ** Loader *)

(** An item of the body of a response.  [Object user] is an object whose
    [name] is a string (its id a number, its email a string, as the
    endpoint serves them).  [Malformed] stands for every item on which
    [user.name.split(" ")] throws a TypeError: [null], or an object whose
    [name] is missing or is not a string. *)
Inductive RemoteItem : Type :=
| Object (user : RemoteUser.t)
| Malformed.

(** The body of a response, [response.data]: an array of items, or any
    other value (no body, a string, an object), on which [.map] is not a
    function. *)
Inductive Body : Type :=
| Array (items : list RemoteItem)
| NotArray.

(** What [axios.get] settles with: a response with its HTTP status, or no
    response at all.  With the library's default status check the promise
    is rejected unless the status is 2xx. *)
Inductive AxiosOutcome : Type :=
| Response (status : Z) (data : Body)
| NetworkError.

(** [await axios.get(url)]: the data of the response when the promise is
    fulfilled, [None] when it is rejected (control goes to [catch]). *)
Definition axios_get (o : AxiosOutcome) : option Body :=
  match o with
  | Response status data =>
      if (200 <=? status) && (status <? 300) then Some data else None
  | NetworkError => None
  end.

(** A computation that may await HTTP reads before it returns. *)
Inductive Async (A : Type) : Type :=
| Return (a : A)
| AxiosGet (url : string) (k : AxiosOutcome -> Async A).
Arguments Return {A} a.
Arguments AxiosGet {A} url k.

(** Run against a network that answers the n-th request with [net n];
    gives the result and the urls requested, in order. *)
Fixpoint run {A : Type} (net : nat -> AxiosOutcome) (n : nat) (p : Async A)
  : A * list string :=
  match p with
  | Return a => (a, [])
  | AxiosGet url k =>
      let '(a, log) := run net (S n) (k (net n)) in (a, url :: log)
  end.

(** The callback of [response.data.map]. *)
Definition formatUser (user : RemoteUser.t) : User.t :=
  User.mk (RemoteUser.id user)
          (Js.first_piece (Js.split " " (RemoteUser.name user)))
          (Js.index_or_empty (Js.split " " (RemoteUser.name user)) 1)
          (RemoteUser.email user)
          "General".

Definition usersUrl : string := "https://jsonplaceholder.typicode.com/users".

(** The callback on one item: [None] when it throws. *)
Definition formatItem (item : RemoteItem) : option User.t :=
  match item with
  | Object user => Some (formatUser user)
  | Malformed => None
  end.

(** [response.data.map(...)]: the formatted records, or [None] when the
    call throws, because the body is not an array or because the callback
    throws on an item. *)
Definition formattedUsers (data : Body) : option (list User.t) :=
  match data with
  | Array items => mapM formatItem items
  | NotArray => None
  end.

(** Whatever is thrown inside [try], by the rejected promise or by the
    mapping of the body, ends in the [catch] branch. *)
Definition fetchUsers : Async (list Update) :=
  AxiosGet usersUrl (fun o =>
    match axios_get o with
    | Some data =>
        match formattedUsers data with
        | Some formatted => Return [setUsers formatted]
        | None => Return [setError "Failed to fetch users."]
        end
    | None => Return [setError "Failed to fetch users."]
    end).

(** [useEffect(() => { fetchUsers(); }, [])]: runs once, after the first
    render.  Gives the state after the fetch settled and the requests made. *)
Definition mount (net : nat -> AxiosOutcome) : State * list string :=
  let '(queue, log) := run net 0 fetchUsers in (commit initialState queue, log).

(** ** Form controller and Store

    The handlers of the Store wrap their bodies in [try]/[catch].  On
    values of the types above nothing in those bodies throws, so the
    [catch] branches are not reached and the model leaves them out. *)

(** [setFormData({ ...formData, [e.target.name]: e.target.value })] for the
    four inputs of the modal. *)
Definition handleFormChange (name value : string) (s : State) : list Update :=
  let fd := formData s in
  [setFormData
     (FormData.mk (FormData.id fd)
        (if String.eqb name "firstName" then value else FormData.firstName fd)
        (if String.eqb name "lastName" then value else FormData.lastName fd)
        (if String.eqb name "email" then value else FormData.email fd)
        (if String.eqb name "department" then value else FormData.department fd))].

(** [users.reduce((max, user) => (user.id > max ? user.id : max), 0)];
    the fold only compares and copies ids, which is exact. *)
Definition maxId (us : list User.t) : Z :=
  fold_left (fun max user => if User.id user >? max then User.id user else max)
            us 0.

(** [const newId = maxId + 1;], a binary64 addition. *)
Definition newId (us : list User.t) : Z := Js.add (maxId us) 1.

(** The object literal both handlers build from the form fields
    ([newUser], [updatedUser]), with the id [i]. *)
Definition draftRecord (i : Z) (fd : FormData.t) : User.t :=
  User.mk i (FormData.firstName fd) (FormData.lastName fd)
          (FormData.email fd) (FormData.department fd).

(** The presence check of [handleAddUser]. *)
Definition anyFieldEmpty (fd : FormData.t) : bool :=
  negb (Js.truthy (FormData.firstName fd))
  || negb (Js.truthy (FormData.lastName fd))
  || negb (Js.truthy (FormData.email fd))
  || negb (Js.truthy (FormData.department fd)).

Definition handleAddUser (s : State) : list Update :=
  let fd := formData s in
  if anyFieldEmpty fd then [setError "All fields must be filled out!"]
  else
    let newUser := draftRecord (newId (users s)) fd in
    [ setUsersWith (fun prevUsers => prevUsers ++ [newUser]);
      setShowModal false;
      setFormData FormData.blank ].

(** [user.id === formData.id]: a blank draft id equals no number.  On a
    match [updatedUser.id], which is [formData.id], is the id of [user]. *)
Definition idMatches (user : User.t) (fd : FormData.t) : bool :=
  match FormData.id fd with
  | Some i => User.id user =? i
  | None => false
  end.

(** The callback of [users.map] in [handleEditUser]. *)
Definition editRecord (fd : FormData.t) (user : User.t) : User.t :=
  if idMatches user fd then draftRecord (User.id user) fd else user.

Definition handleEditUser (s : State) : list Update :=
  let fd := formData s in
  [ setUsers (editRecord fd <$> users s);
    setEditing false;
    setShowModal false;
    setFormData FormData.blank ].

Definition handleDeleteUser (id : Z) (s : State) : list Update :=
  [ setUsers (filter (fun user => User.id user ≠ id) (users s)) ].

(** The records [handleDeleteUser] keeps. *)
Local Abbreviation keepOthers i := (filter (fun user => User.id user ≠ i)).

(** [handleOpenModal(user = {})]: [None] is the call without a record;
    a record whose id is 0 is falsy and opens the Add form as well. *)
Definition handleOpenModal (user : option User.t) (s : State) : list Update :=
  match user with
  | Some u =>
      if User.id u =? 0 then
        [setEditing false; setFormData FormData.blank; setShowModal true]
      else
        [ setEditing true;
          setFormData (FormData.mk (Some (User.id u)) (User.firstName u)
                         (User.lastName u) (User.email u) (User.department u));
          setShowModal true ]
  | None => [setEditing false; setFormData FormData.blank; setShowModal true]
  end.

Definition handleCloseModal (s : State) : list Update :=
  [setShowModal false; setError EmptyString].

(** The Save button: [editing ? handleEditUser : handleAddUser]. *)
Definition handleSave (s : State) : list Update :=
  if editing s then handleEditUser s else handleAddUser s.

(** ** Paginator *)

Definition paginateUsers (s : State) : list User.t :=
  let startIndex := (currentPage s - 1) * usersPerPage in
  Js.slice (users s) startIndex (startIndex + usersPerPage).

(** The page numbers shown by the pagination control. *)
Definition pageCount (s : State) : Z :=
  Js.ceil_quot (Z.of_nat (length (users s))) usersPerPage.

Definition pageNumbers (s : State) : list Z :=
  (fun num => num + 1) <$> Js.keys (pageCount s).

(** Clicking a page number: [setCurrentPage(num + 1)], with [p] for
    [num + 1]. *)
Definition handleSelectPage (p : Z) (s : State) : list Update :=
  [setCurrentPage p].

(** ** Words of the specification, for comparison with the code *)

(** The maximum of the ids of the records, if there is a record. *)
Definition max_existing_id (us : list User.t) : option Z :=
  foldr (fun user acc =>
           Some (match acc with
                 | Some m => Z.max (User.id user) m
                 | None => User.id user
                 end))
        None us.

(** "max(existing ids) + 1 (or 1 if empty)". *)
Definition spec_next_id (us : list User.t) : Z :=
  match max_existing_id us with
  | Some m => m + 1
  | None => 1
  end.

(** The part of a name before its first space (all of it without one). *)
Fixpoint before_space (s : string) : string :=
  match s with
  | EmptyString => EmptyString
  | String c rest =>
      if Ascii.eqb c " " then EmptyString else String c (before_space rest)
  end.

(** The remainder of a name after its first space (empty without one). *)
Fixpoint after_space (s : string) : string :=
  match s with
  | EmptyString => EmptyString
  | String c rest => if Ascii.eqb c " " then rest else after_space rest
  end.

(** "records[a : b]" for [0 <= a <= b]. *)
Definition spec_slice {A : Type} (l : list A) (a b : nat) : list A :=
  take (b - a) (drop a l).

(** The ids of a store, in order. *)
Definition ids (us : list User.t) : list Z := User.id <$> us.

(** Typing the four fields of [fd] into the inputs of the modal. *)
Definition fillForm (fd : FormData.t) (s : State) : State :=
  dispatch (handleFormChange "department" (FormData.department fd))
    (dispatch (handleFormChange "email" (FormData.email fd))
       (dispatch (handleFormChange "lastName" (FormData.lastName fd))
          (dispatch (handleFormChange "firstName" (FormData.firstName fd)) s))).

(** One Add operation: the Add User button opens the form, the fields of
    the draft [fd] are typed in, and Save is pressed. *)
Definition Add (fd : FormData.t) (s : State) : State :=
  dispatch handleSave (fillForm fd (dispatch (handleOpenModal None) s)).

(** A sequence of Add operations, first draft first. *)
Definition Adds (fds : list FormData.t) (s : State) : State :=
  fold_left (fun st fd => Add fd st) fds s.

(** Does the string hold a space? *)
Fixpoint has_space (s : string) : bool :=
  match s with
  | EmptyString => false
  | String c rest => Ascii.eqb c " " || has_space rest
  end.

(** ** States used as examples *)

(** The Store of the scenario of the specification and its draft. *)
Definition scenarioStore : State :=
  mkState [User.mk 1 "Ann" "Lee" "ann@x.org" "Ops";
           User.mk 2 "Bob" "Ray" "bob@x.org" "Lab"]
          true (FormData.mk None "A" "B" "a@b.com" "X") EmptyString false 1.

(** A Store whose only id is negative (ids are copied from the remote data
    as they come). *)
Definition negativeStore : State :=
  mkState [User.mk (-5) "Ann" "Lee" "ann@x.org" "Ops"]
          true (FormData.mk None "A" "B" "a@b.com" "X") EmptyString false 1.

(** A state with the modal open on a draft without a department. *)
Definition incompleteDraft : State :=
  mkState [User.mk 1 "Ann" "Lee" "ann@x.org" "Ops"]
          true (FormData.mk None "A" "B" "a@b.com" EmptyString) EmptyString false 1.

(** Six records seen on page 2. *)
Definition sixOnPageTwo : State :=
  mkState ((fun i => User.mk i "N" "M" "n@m.org" "Ops") <$> [1; 2; 3; 4; 5; 6])
          false FormData.blank EmptyString false 2.

(** The scenario Store with the Edit form open on record 2. *)
Definition editingSecond : State :=
  mkState (users scenarioStore) true
          (FormData.mk (Some 2) "Rob" "Roy" "rob@x.org" "Art") EmptyString true 1.

(** The same form after record 2 has gone from the Store. *)
Definition editingMissing : State :=
  mkState [User.mk 1 "Ann" "Lee" "ann@x.org" "Ops"] true
          (FormData.mk (Some 2) "Rob" "Roy" "rob@x.org" "Art") EmptyString true 1.

(** The Edit form open on record 2 with every field wiped. *)
Definition editingWiped : State :=
  mkState (users scenarioStore) true
          (FormData.mk (Some 2) EmptyString EmptyString EmptyString EmptyString)
          EmptyString true 1.

(** A Store in which two records carry the id 1. *)
Definition duplicateStore : State :=
  mkState [User.mk 1 "Ann" "Lee" "ann@x.org" "Ops";
           User.mk 2 "Bob" "Ray" "bob@x.org" "Lab";
           User.mk 1 "Cat" "Fox" "cat@x.org" "Ops"]
          false FormData.blank EmptyString false 1.

(** Twelve records seen on page 2. *)
Definition twelveOnPageTwo : State :=
  mkState ((fun i => User.mk i "N" "M" "n@m.org" "Ops")
             <$> [1; 2; 3; 4; 5; 6; 7; 8; 9; 10; 11; 12])
          false FormData.blank EmptyString false 2.

(** A response of the endpoint with two items. *)
Definition twoItems : AxiosOutcome :=
  Response 200
    (Array [Object (RemoteUser.mk 1 "Leanne Graham" "l@april.biz");
            Object (RemoteUser.mk 6 "Mrs. Dennis Schulist" "k@j.info")]).

(** A Store whose only record carries the id 2^53. *)
Definition hugeStore : State :=
  mkState [User.mk 9007199254740992 "Ann" "Lee" "ann@x.org" "Ops"]
          true (FormData.mk None "A" "B" "a@b.com" "X") EmptyString false 1.

(** ** The mounted component: what is rendered and what can happen *)

(** The four inputs of the modal. *)
Inductive Field : Type :=
| firstNameInput
| lastNameInput
| emailInput
| departmentInput.

(** The [name] attribute of an input. *)
Definition fieldName (f : Field) : string :=
  match f with
  | firstNameInput => "firstName"
  | lastNameInput => "lastName"
  | emailInput => "email"
  | departmentInput => "department"
  end.

(** Typing into inputs, one change event after the other. *)
Definition typing (changes : list (Field * string)) (s : State) : State :=
  fold_left (fun st c => dispatch (handleFormChange (fieldName c.1) c.2) st)
            changes s.

(** The value an input shows: [value={formData.firstName}] and the like. *)
Definition fieldValue (f : Field) (fd : FormData.t) : string :=
  match f with
  | firstNameInput => FormData.firstName fd
  | lastNameInput => FormData.lastName fd
  | emailInput => FormData.email fd
  | departmentInput => FormData.department fd
  end.

(** The queue [fetchUsers] commits once its request has settled with [o]. *)
Definition fetchSettled (o : AxiosOutcome) : list Update :=
  fst (run (fun _ => o) 0 fetchUsers).

(** The [Pagination.Item]s: the label [num + 1] and the [active] flag
    [num + 1 === currentPage]. *)
Definition paginationItems (s : State) : list (Z * bool) :=
  (fun num => (num + 1, num + 1 =? currentPage s)) <$> Js.keys (pageCount s).

(** The events of the mounted component, each with the handler the JSX
    wires to it. *)
Inductive Event : Type :=
| ClickAddUser
| ClickEdit (user : User.t)
| ClickDelete (user : User.t)
| ChangeInput (f : Field) (value : string)
| ClickSave
| CloseModal
| ClickPage (num : Z)
| FetchSettles (o : AxiosOutcome).

Definition handleEvent (ev : Event) (s : State) : State :=
  match ev with
  | ClickAddUser => dispatch (handleOpenModal None) s
  | ClickEdit user => dispatch (handleOpenModal (Some user)) s
  | ClickDelete user => dispatch (handleDeleteUser (User.id user)) s
  | ChangeInput f value => dispatch (handleFormChange (fieldName f) value) s
  | ClickSave => dispatch handleSave s
  | CloseModal => dispatch handleCloseModal s
  | ClickPage num => dispatch (handleSelectPage (num + 1)) s
  | FetchSettles o => commit s (fetchSettled o)
  end.

Definition handleEvents (evs : list Event) (s : State) : State :=
  fold_left (fun st ev => handleEvent ev st) evs s.

(** The form and the mode flag agree: in Edit mode the draft carries the
    (truthy) id of a record, in Add mode its id is blank. *)
Definition modeAgrees (s : State) : Prop :=
  if editing s
  then ∃ i, FormData.id (formData s) = Some i ∧ i ≠ 0
  else FormData.id (formData s) = None.

(** The ids of a list of records are all below [b]. *)
Definition idsBelow (b : Z) (us : list User.t) : Prop :=
  Forall (fun i => i < b) (ids us).

(** The records a read delivers, when it delivers any, carry distinct ids
    below [b]. *)
Definition remoteIdsDistinctBelow (b : Z) (ev : Event) : Prop :=
  match ev with
  | FetchSettles o =>
      match axios_get o with
      | Some data =>
          match formattedUsers data with
          | Some formatted => NoDup (ids formatted) ∧ idsBelow b formatted
          | None => True
          end
      | None => True
      end
  | _ => True
  end.

(** The draft the Edit form opens with for a record. *)
Definition draftOf (u : User.t) : FormData.t :=
  FormData.mk (Some (User.id u)) (User.firstName u) (User.lastName u)
              (User.email u) (User.department u).

(** ** Basic facts about the update queue *)

Section Queue.
Implicit Types (s : State) (u : User.t) (fd : FormData.t).

Lemma dispatch_handleAddUser_valid s :
  anyFieldEmpty (formData s) = false →
  dispatch handleAddUser s =
    mkState (users s ++ [draftRecord (newId (users s)) (formData s)])
            false FormData.blank (error s) (editing s) (currentPage s).
Proof.
  intros Hv. unfold dispatch, handleAddUser. rewrite Hv. reflexivity.
Qed.

Lemma dispatch_handleAddUser_invalid s :
  anyFieldEmpty (formData s) = true →
  dispatch handleAddUser s =
    mkState (users s) (showModal s) (formData s)
            "All fields must be filled out!" (editing s) (currentPage s).
Proof.
  intros Hv. unfold dispatch, handleAddUser. rewrite Hv. reflexivity.
Qed.

Lemma anyFieldEmpty_false fd :
  anyFieldEmpty fd = false ↔
    FormData.firstName fd ≠ EmptyString ∧
    FormData.lastName fd ≠ EmptyString ∧
    FormData.email fd ≠ EmptyString ∧ FormData.department fd ≠ EmptyString.
Proof.
  unfold anyFieldEmpty.
  destruct fd as [i [|] [|] [|] [|]]; simpl; split; intros H;
    try discriminate; try reflexivity; repeat split; try discriminate;
    destruct H as (? & ? & ? & ?); congruence.
Qed.
End Queue.

(** ** The id assigned by Add *)

Section MaxId.
Implicit Types (us : list User.t) (u : User.t).

Lemma maxId_fold us a :
  fold_left (fun max user => if User.id user >? max then User.id user else max)
            us a
  = match max_existing_id us with
    | Some m => Z.max a m
    | None => a
    end.
Proof.
  revert a. induction us as [|u us IH]; intros a; simpl; [reflexivity|].
  rewrite IH. rewrite Z.gtb_ltb.
  destruct (max_existing_id us) as [m|], (Z.ltb_spec a (User.id u)); lia.
Qed.

Lemma maxId_spec us :
  maxId us = match max_existing_id us with
             | Some m => Z.max 0 m
             | None => 0
             end.
Proof. apply maxId_fold. Qed.

(** [max_existing_id] is the greatest id of the list. *)
Lemma max_existing_id_greatest us m :
  max_existing_id us = Some m →
  m ∈ ids us ∧ Forall (fun i => i ≤ m) (ids us).
Proof.
  revert m. induction us as [|u us IH]; intros m; simpl; [discriminate|].
  destruct (max_existing_id us) as [m'|] eqn:E; intros [= <-].
  - destruct (IH m' eq_refl) as [Hin Hle]. split.
    + destruct (Z.max_spec (User.id u) m') as [[_ ->]|[_ ->]];
        [right; exact Hin | left].
    + constructor; [lia|].
      eapply Forall_impl; [exact Hle|]. simpl. intros; lia.
  - destruct us; [|discriminate]. split; [left|].
    repeat constructor. lia.
Qed.

Lemma max_existing_id_None us : max_existing_id us = None ↔ us = [].
Proof. destruct us; simpl; split; congruence. Qed.

Lemma maxId_nonneg us : 0 ≤ maxId us.
Proof. rewrite maxId_spec. destruct (max_existing_id us); lia. Qed.

Lemma maxId_upper us : Forall (fun i => i ≤ maxId us) (ids us).
Proof.
  rewrite maxId_spec. destruct (max_existing_id us) as [m|] eqn:E.
  - apply max_existing_id_greatest in E as [_ H].
    eapply Forall_impl; [exact H|]. simpl. intros; lia.
  - apply max_existing_id_None in E as ->. constructor.
Qed.

Lemma ids_snoc us u : ids (us ++ [u]) = ids us ++ [User.id u].
Proof. unfold ids. by rewrite fmap_app. Qed.

Lemma NoDup_ids_snoc us u :
  NoDup (ids us) → Forall (fun i => i < User.id u) (ids us) →
  NoDup (ids (us ++ [u])).
Proof.
  intros Hnd Hlt. rewrite ids_snoc. apply NoDup_app. split; [exact Hnd|].
  split; [|apply NoDup_singleton].
  intros i Hi Hin. apply list_elem_of_singleton in Hin as ->.
  rewrite Forall_forall in Hlt. specialize (Hlt _ Hi). lia.
Qed.
End MaxId.

(** ** Add *)

Section AddUser.
Implicit Types (s : State) (fd : FormData.t).

(** Integers up to 2^53 in size are binary64 numbers. *)
Lemma round64_exact (z : Z) : - 2 ^ 53 ≤ z ≤ 2 ^ 53 → Js.round64 z = z.
Proof.
  intros Hz. unfold Js.round64.
  destruct (Z.ltb_spec (Z.abs z) (2 ^ 53)) as [|Hge]; [reflexivity|].
  assert (Hcases : z = 2 ^ 53 ∨ z = - 2 ^ 53) by lia.
  destruct Hcases as [-> | ->]; reflexivity.
Qed.

(** Below 2^53 the addition of [newId] is exact. *)
Lemma newId_exact us : maxId us < 2 ^ 53 → newId us = maxId us + 1.
Proof.
  intros Hlt. unfold newId, Js.add. apply round64_exact.
  pose proof (maxId_nonneg us). lia.
Qed.

(** The id Add assigns, in the words of the specification where they
    apply: one more than the greatest existing id, but never less
    than 1. *)
Lemma maxId_next us :
  maxId us + 1 = match max_existing_id us with
                 | Some m => Z.max 0 m + 1
                 | None => 1
                 end.
Proof. rewrite maxId_spec. destruct (max_existing_id us); lia. Qed.

(** The greatest id after a record with the id [maxId + 1] is appended. *)
Lemma maxId_snoc_next us u :
  User.id u = maxId us + 1 → maxId (us ++ [u]) = maxId us + 1.
Proof.
  intros Hu. unfold maxId at 1. rewrite fold_left_app. simpl.
  fold (maxId us). rewrite Hu.
  destruct (Z.gtb_spec (maxId us + 1) (maxId us)); lia.
Qed.

(** An Add operation reaches [handleAddUser] with the typed draft. *)
Lemma Add_unfold fd s :
  Add fd s =
    dispatch handleAddUser
      (mkState (users s) true
               (FormData.mk None (FormData.firstName fd) (FormData.lastName fd)
                            (FormData.email fd) (FormData.department fd))
               (error s) false (currentPage s)).
Proof. reflexivity. Qed.

Lemma users_Add fd s :
  anyFieldEmpty fd = false →
  users (Add fd s) = users s ++ [draftRecord (newId (users s)) fd].
Proof.
  intros Hv. rewrite Add_unfold, dispatch_handleAddUser_valid by exact Hv.
  reflexivity.
Qed.

Lemma Adds_cons fd fds s : Adds (fd :: fds) s = Adds fds (Add fd s).
Proof. reflexivity. Qed.
End AddUser.

(** C1 (as amended).  Adding a valid draft appends one record built from
    the draft's fields at the end of the Store, and every existing record
    keeps its position and value.  The id of the new record is 1 when the
    Store is empty, and the greatest existing id plus 1 when that id is at
    least 0 and below 2^53; a Store with ids 1 and 2 gets a record with
    id 3 and length 3. *)
Theorem handleAddUser_appends_next_id (s : State) :
  anyFieldEmpty (formData s) = false →
  let s' := dispatch handleAddUser s in
  users s' = users s ++ [draftRecord (newId (users s)) (formData s)]
  ∧ (users s = [] → newId (users s) = 1)
  ∧ (∀ m, max_existing_id (users s) = Some m → 0 ≤ m < 2 ^ 53 →
       newId (users s) = m + 1 ∧ newId (users s) = spec_next_id (users s))
  ∧ (∀ (k : nat) u, users s !! k = Some u → users s' !! k = Some u)
  ∧ length (users s') = S (length (users s))
  ∧ (ids (users s) = [1; 2] →
     newId (users s) = 3 ∧ length (users s') = 3%nat).
Proof.
  intros Hv s'.
  assert (Hs' : users s' =
                users s ++ [draftRecord (newId (users s)) (formData s)]).
  { subst s'. by rewrite dispatch_handleAddUser_valid. }
  split; [exact Hs'|]. split; [|split; [|split; [|split]]].
  - intros E. by rewrite E.
  - intros m Hm Hpos. unfold spec_next_id. rewrite Hm.
    assert (HmaxId : maxId (users s) = m) by (rewrite maxId_spec, Hm; lia).
    rewrite newId_exact by lia. split; lia.
  - intros k u Hk. rewrite Hs'. rewrite lookup_app_l; [exact Hk|].
    by eapply lookup_lt_Some.
  - rewrite Hs', length_app. simpl. lia.
  - intros Hids. rewrite Hs', length_app. simpl.
    destruct (users s) as [|u1 [|u2 [|u3 us]]]; try discriminate.
    injection Hids as H1 H2. unfold newId, maxId. simpl. rewrite H1, H2.
    split; reflexivity.
Qed.

Lemma handleAddUser_appends_next_id_witness :
  users (dispatch handleAddUser scenarioStore) =
    users scenarioStore ++ [User.mk 3 "A" "B" "a@b.com" "X"].
Proof.
  exact (proj1 (handleAddUser_appends_next_id scenarioStore eq_refl)).
Defined.

(** C1 as stated fails on two Stores.  On [hugeStore] the greatest
    existing id is 2^53, so the stated id is 2^53 + 1, and the code assigns
    2^53 again: the sum is not a binary64 number and rounds back.  On
    [negativeStore] the greatest existing id is -5, so the stated id is
    -4, and the code assigns 1. *)
Lemma handleAddUser_spec_next_id_counterexample :
  (anyFieldEmpty (formData hugeStore) = false
   ∧ max_existing_id (users hugeStore) = Some 9007199254740992
   ∧ spec_next_id (users hugeStore) = 9007199254740993
   ∧ ids (users (dispatch handleAddUser hugeStore))
     = [9007199254740992; 9007199254740992]
   ∧ last (ids (users (dispatch handleAddUser hugeStore)))
     ≠ Some (spec_next_id (users hugeStore)))
  ∧ (anyFieldEmpty (formData negativeStore) = false
     ∧ max_existing_id (users negativeStore) = Some (-5)
     ∧ spec_next_id (users negativeStore) = -4
     ∧ ids (users (dispatch handleAddUser negativeStore)) = [-5; 1]
     ∧ last (ids (users (dispatch handleAddUser negativeStore)))
       ≠ Some (spec_next_id (users negativeStore))).
Proof. repeat split; discriminate. Qed.

(** C5.  When any of the four fields of the draft is empty, Add changes
    nothing but the error message, which becomes the validation message:
    the Store, the open modal and the draft stay as they were.  With four
    non-empty fields Add always goes through: the record is appended, the
    modal closes, the draft is cleared and no error message is set. *)
Theorem handleAddUser_validation (s : State) :
  (FormData.firstName (formData s) = EmptyString
   ∨ FormData.lastName (formData s) = EmptyString
   ∨ FormData.email (formData s) = EmptyString
   ∨ FormData.department (formData s) = EmptyString →
   dispatch handleAddUser s =
     mkState (users s) (showModal s) (formData s)
             "All fields must be filled out!" (editing s) (currentPage s))
  ∧ (FormData.firstName (formData s) ≠ EmptyString
     ∧ FormData.lastName (formData s) ≠ EmptyString
     ∧ FormData.email (formData s) ≠ EmptyString
     ∧ FormData.department (formData s) ≠ EmptyString →
     dispatch handleAddUser s =
       mkState (users s ++ [draftRecord (newId (users s)) (formData s)])
               false FormData.blank (error s) (editing s) (currentPage s)).
Proof.
  split.
  - intros H. apply dispatch_handleAddUser_invalid.
    destruct (anyFieldEmpty (formData s)) eqn:E; [reflexivity|].
    apply anyFieldEmpty_false in E. tauto.
  - intros H. apply dispatch_handleAddUser_valid. by apply anyFieldEmpty_false.
Qed.

Lemma handleAddUser_validation_witness :
  dispatch handleAddUser incompleteDraft =
    mkState (users incompleteDraft) true (formData incompleteDraft)
            "All fields must be filled out!" false 1
  ∧ dispatch handleAddUser scenarioStore =
    mkState (users scenarioStore ++ [User.mk 3 "A" "B" "a@b.com" "X"])
            false FormData.blank EmptyString false 1.
Proof.
  split.
  - apply (proj1 (handleAddUser_validation incompleteDraft)).
    right; right; right; reflexivity.
  - apply (proj2 (handleAddUser_validation scenarioStore)).
    repeat split; discriminate.
Defined.

(** ** Sequences of Add operations *)

Section AddSequence.
Implicit Types (s : State) (fd : FormData.t) (fds : list FormData.t).

Local Abbreviation valid := (fun fd => anyFieldEmpty fd = false).

(** While the greatest id is below 2^53, the id of a valid Add is above
    every id of the Store. *)
Lemma Add_id_fresh s :
  maxId (users s) < 2 ^ 53 →
  Forall (fun i => i < newId (users s)) (ids (users s)).
Proof.
  intros Hlt. rewrite newId_exact by exact Hlt.
  eapply Forall_impl; [apply maxId_upper|]. simpl. intros; lia.
Qed.

Lemma maxId_Add fd s :
  valid fd → maxId (users s) < 2 ^ 53 →
  maxId (users (Add fd s)) = maxId (users s) + 1.
Proof.
  intros Hv Hlt. rewrite users_Add by exact Hv.
  apply maxId_snoc_next. simpl. by apply newId_exact.
Qed.

Lemma Add_NoDup fd s :
  valid fd → maxId (users s) < 2 ^ 53 →
  NoDup (ids (users s)) → NoDup (ids (users (Add fd s))).
Proof.
  intros Hv Hlt Hnd. rewrite users_Add by exact Hv.
  apply NoDup_ids_snoc; [exact Hnd|]. by apply Add_id_fresh.
Qed.

Lemma Adds_NoDup fds s :
  Forall valid fds → maxId (users s) + Z.of_nat (length fds) ≤ 2 ^ 53 →
  NoDup (ids (users s)) → NoDup (ids (users (Adds fds s))).
Proof.
  intros Hv. revert s. induction Hv as [|fd fds Hfd _ IH]; intros s Hb Hnd.
  - exact Hnd.
  - simpl length in Hb. rewrite Adds_cons. apply IH.
    + rewrite maxId_Add by (exact Hfd || lia). lia.
    + apply Add_NoDup; [exact Hfd|lia|exact Hnd].
Qed.

(** What a sequence of valid Adds appends: ids in increasing order, all
    above the ids that were there. *)
Lemma Adds_appended fds s :
  Forall valid fds → maxId (users s) + Z.of_nat (length fds) ≤ 2 ^ 53 →
  ∃ added,
    users (Adds fds s) = users s ++ added
    ∧ length added = length fds
    ∧ StronglySorted Z.lt (ids added)
    ∧ Forall (fun i => Forall (fun j => j < i) (ids (users s))) (ids added).
Proof.
  intros Hv. revert s. induction Hv as [|fd fds Hfd _ IH]; intros s Hb.
  - exists []. rewrite app_nil_r. repeat split; constructor.
  - simpl length in Hb.
    assert (Hlt : maxId (users s) < 2 ^ 53) by lia.
    destruct (IH (Add fd s)) as (added & Hus & Hlen & Hsort & Habove).
    { rewrite maxId_Add by (exact Hfd || lia). lia. }
    rewrite users_Add in Hus, Habove by exact Hfd.
    set (new := draftRecord (newId (users s)) fd) in *.
    exists (new :: added). rewrite Adds_cons, Hus, <- app_assoc.
    split; [reflexivity|]. split; [simpl; by rewrite Hlen|].
    rewrite ids_snoc in Habove. split.
    + simpl. constructor; [exact Hsort|].
      eapply Forall_impl; [exact Habove|]. simpl. intros i Hi.
      apply Forall_app in Hi as [_ Hi]. by inversion Hi.
    + simpl. constructor; [by apply Add_id_fresh|].
      eapply Forall_impl; [exact Habove|]. simpl. intros i Hi.
      by apply Forall_app in Hi as [Hi _].
Qed.
End AddSequence.

(** C2 (as amended).  Starting from a Store with unique ids, a sequence of
    Add operations whose drafts have four non-empty fields, short enough
    that the greatest id (0 when none is positive) plus the number of
    operations does not exceed 2^53, appends one record per operation; the
    ids of the appended records are strictly increasing (and above every
    id the Store had), and after each operation of the sequence the ids of
    the Store are unique. *)
Theorem Adds_ids_increasing_unique (fds : list FormData.t) (s : State) :
  Forall (fun fd => anyFieldEmpty fd = false) fds →
  NoDup (ids (users s)) →
  maxId (users s) + Z.of_nat (length fds) ≤ 2 ^ 53 →
  (∃ added,
      users (Adds fds s) = users s ++ added
      ∧ length added = length fds
      ∧ StronglySorted Z.lt (ids added)
      ∧ Forall (fun i => Forall (fun j => j < i) (ids (users s))) (ids added))
  ∧ (∀ k : nat, NoDup (ids (users (Adds (take k fds) s)))).
Proof.
  intros Hv Hnd Hb. split.
  - by apply Adds_appended.
  - intros k. apply Adds_NoDup; [by apply Forall_take| |exact Hnd].
    rewrite length_take. lia.
Qed.

Lemma Adds_ids_increasing_unique_witness :
  ids (users (Adds [FormData.mk None "A" "B" "a@b.com" "X";
                    FormData.mk None "C" "D" "c@d.com" "Y"] scenarioStore))
    = [1; 2; 3; 4]
  ∧ NoDup (ids (users (Adds [FormData.mk None "A" "B" "a@b.com" "X";
                             FormData.mk None "C" "D" "c@d.com" "Y"]
                            scenarioStore))).
Proof.
  split; [reflexivity|].
  refine (proj2 (Adds_ids_increasing_unique
                   [FormData.mk None "A" "B" "a@b.com" "X";
                    FormData.mk None "C" "D" "c@d.com" "Y"]
                   scenarioStore _ _ _) 2%nat).
  - repeat constructor.
  - apply (bool_decide_unpack _). vm_compute. exact I.
  - vm_compute. discriminate.
Defined.

(** C2 as stated fails on [hugeStore], whose one id, 2^53, is unique: two
    valid Adds are both given the id 2^53 again, so the ids of the added
    records do not increase and the ids of the Store are not unique. *)
Lemma Adds_ids_increasing_unique_counterexample :
  NoDup (ids (users hugeStore))
  ∧ ids (users (Adds [FormData.mk None "A" "B" "a@b.com" "X";
                      FormData.mk None "C" "D" "c@d.com" "Y"] hugeStore))
    = [9007199254740992; 9007199254740992; 9007199254740992]
  ∧ ¬ StronglySorted Z.lt [9007199254740992; 9007199254740992]
  ∧ ¬ NoDup (ids (users (Adds [FormData.mk None "A" "B" "a@b.com" "X"]
                              hugeStore))).
Proof.
  split; [apply (bool_decide_unpack _); vm_compute; exact I|].
  split; [reflexivity|]. split.
  - intros H. inversion H as [|? ? _ Hall]; subst.
    inversion Hall as [|? ? Hlt _]; subst. lia.
  - intros H. apply (bool_decide_pack _) in H. vm_compute in H. exact H.
Qed.

(** ** Paginator *)

Section Paginator.
Context {A : Type}.
Implicit Types (l : list A).

(** For a start inside or past the array and a width, [slice] is the
    window of that width at that start. *)
Lemma slice_window l (a w : Z) :
  0 ≤ a → 0 ≤ w →
  Js.slice l a (a + w) = take (Z.to_nat w) (drop (Z.to_nat a) l).
Proof.
  intros Ha Hw. unfold Js.slice, Js.clamp_index.
  destruct (Z.ltb_spec a 0) as [?|_]; [lia|].
  destruct (Z.ltb_spec (a + w) 0) as [?|_]; [lia|].
  set (len := Z.of_nat (length l)).
  destruct (Z.le_gt_cases len a) as [Hout|Hin].
  - rewrite (drop_ge l (Z.to_nat a)) by lia.
    rewrite (drop_ge l (Z.to_nat (Z.min a len))) by lia.
    by rewrite !take_nil.
  - replace (Z.min a len) with a by lia.
    destruct (Z.le_gt_cases (a + w) len) as [Hfit|Hcut].
    + f_equal. lia.
    + rewrite !take_ge; [reflexivity| |]; rewrite length_drop; lia.
Qed.

(** The windows of width 5 at 0, 5, 10, ... cover the list once there
    are enough of them. *)
Lemma windows_concat (n : nat) l :
  (length l ≤ 5 * n)%nat →
  concat ((fun k : nat => take 5 (drop (5 * k) l)) <$> seq 0 n) = l.
Proof.
  revert l. induction n as [|n IH]; intros l Hlen.
  - destruct l; [reflexivity|simpl in Hlen; lia].
  - rewrite <- cons_seq, <- fmap_S_seq, fmap_cons, <- list_fmap_compose.
    transitivity (take 5 l ++ drop 5 l); [|apply take_drop].
    change (5 * 0)%nat with 0%nat. cbn [concat drop]. f_equal.
    etransitivity; [|apply (IH (drop 5 l)); rewrite length_drop; lia].
    f_equal. apply list_fmap_ext. intros _ k _. cbn [compose].
    rewrite drop_drop. do 2 f_equal. lia.
Qed.
End Paginator.

Section PageCount.
Lemma ceil_quot_bounds (n : Z) :
  0 ≤ n → n ≤ 5 * Js.ceil_quot n 5 < n + 5.
Proof.
  intros Hn. unfold Js.ceil_quot.
  pose proof (Z.div_mod n 5 ltac:(lia)) as Hdm.
  pose proof (Z.mod_pos_bound n 5 ltac:(lia)) as Hb.
  destruct (Z.eqb_spec (n mod 5) 0); lia.
Qed.

Lemma pageCount_bounds (s : State) :
  Z.of_nat (length (users s)) ≤ 5 * pageCount s
    < Z.of_nat (length (users s)) + 5.
Proof. apply ceil_quot_bounds. lia. Qed.

(** The slice shown once page [p] has been selected. *)
Lemma paginateUsers_select (p : Z) (s : State) :
  1 ≤ p →
  paginateUsers (dispatch (handleSelectPage p) s) =
    take 5 (drop (Z.to_nat ((p - 1) * 5)) (users s)).
Proof.
  intros Hp. unfold paginateUsers, usersPerPage. simpl.
  rewrite slice_window by lia. reflexivity.
Qed.
End PageCount.

(** C3.  With page size 5: on page [p >= 1] the visible slice is
    records[(p-1)*5 : (p-1)*5+5]; the number of pages shown is the ceiling
    of N/5 (the least count whose pages hold N records); the slices of the
    pages 1 .. ceil(N/5), selected in order and concatenated, give back the
    Store; on a page past the last one the slice is empty; selecting a page
    sets the current page to exactly that number and a Delete leaves the
    current page as it is, so nothing clamps it when the list shrinks. *)
Theorem paginator_slices (s : State) :
  (1 ≤ currentPage s →
   paginateUsers s =
     spec_slice (users s) (Z.to_nat ((currentPage s - 1) * 5))
                (Z.to_nat ((currentPage s - 1) * 5 + 5)))
  ∧ Z.of_nat (length (users s)) ≤ 5 * pageCount s
      < Z.of_nat (length (users s)) + 5
  ∧ pageNumbers s = seqZ 1 (pageCount s)
  ∧ concat ((fun p => paginateUsers (dispatch (handleSelectPage p) s))
              <$> pageNumbers s) = users s
  ∧ (1 ≤ currentPage s → pageCount s < currentPage s → paginateUsers s = [])
  ∧ (∀ p, currentPage (dispatch (handleSelectPage p) s) = p)
  ∧ (∀ id, currentPage (dispatch (handleDeleteUser id) s) = currentPage s).
Proof.
  pose proof (pageCount_bounds s) as Hpc.
  assert (Hslice : 1 ≤ currentPage s →
            paginateUsers s =
              take 5 (drop (Z.to_nat ((currentPage s - 1) * 5)) (users s))).
  { intros Hp. unfold paginateUsers, usersPerPage.
    rewrite slice_window by lia. reflexivity. }
  split; [|split; [exact Hpc|split; [|split; [|split; [|split]]]]].
  - intros Hp. rewrite Hslice by exact Hp. unfold spec_slice. f_equal. lia.
  - unfold pageNumbers, Js.keys. rewrite <- (fmap_add_seqZ 1 0).
    apply list_fmap_ext. intros; lia.
  - unfold pageNumbers, Js.keys, seqZ. rewrite <- !list_fmap_compose.
    etransitivity;
      [|apply (windows_concat (Z.to_nat (pageCount s)) (users s)); lia].
    f_equal. apply list_fmap_ext. intros _ k _. cbn [compose].
    rewrite paginateUsers_select by lia. do 2 f_equal. lia.
  - intros Hp Hpast. rewrite Hslice by exact Hp.
    rewrite drop_ge by lia. apply take_nil.
  - reflexivity.
  - reflexivity.
Qed.

Lemma paginator_slices_witness :
  paginateUsers sixOnPageTwo = [User.mk 6 "N" "M" "n@m.org" "Ops"]
  ∧ paginateUsers (dispatch (handleDeleteUser 6) sixOnPageTwo) = [].
Proof.
  split.
  - exact (proj1 (paginator_slices sixOnPageTwo) ltac:(simpl; lia)).
  - apply (proj1 (proj2 (proj2 (proj2 (proj2
             (paginator_slices (dispatch (handleDeleteUser 6) sixOnPageTwo))))))).
    + simpl. lia.
    + vm_compute. reflexivity.
Defined.

(** ** Loader *)

Section SplitName.
Implicit Types (s : string).

Lemma split_nonempty s : Js.split " " s ≠ [].
Proof.
  destruct s as [|c rest]; simpl; [discriminate|].
  destruct (Ascii.eqb c " "); [discriminate|].
  destruct (Js.split " " rest); discriminate.
Qed.

Lemma first_piece_split s :
  Js.first_piece (Js.split " " s) = before_space s.
Proof.
  induction s as [|c rest IH]; simpl; [reflexivity|].
  destruct (Ascii.eqb c " "); [reflexivity|].
  destruct (Js.split " " rest) as [|piece pieces] eqn:E.
  - by apply split_nonempty in E.
  - simpl in *. by rewrite IH.
Qed.

Lemma second_piece_split s :
  Js.index_or_empty (Js.split " " s) 1 = before_space (after_space s).
Proof.
  induction s as [|c rest IH]; simpl; [reflexivity|].
  destruct (Ascii.eqb c " ").
  - rewrite <- first_piece_split.
    unfold Js.index_or_empty; simpl. by destruct (Js.split " " rest).
  - destruct (Js.split " " rest) as [|piece pieces] eqn:E.
    + by apply split_nonempty in E.
    + exact IH.
Qed.

(** [before_space] and [after_space] cut a name at its first space. *)
Lemma name_cut s :
  has_space s = true →
  s = (before_space s ++ " " ++ after_space s)%string
  ∧ has_space (before_space s) = false.
Proof.
  induction s as [|c rest IH]; simpl; [discriminate|].
  destruct (Ascii.eqb_spec c " ") as [->|Hc]; simpl.
  - intros _. split; reflexivity.
  - intros Hsp. destruct (IH Hsp) as [Heq Hno]. split.
    + f_equal. exact Heq.
    + destruct (Ascii.eqb_spec c " "); [contradiction|exact Hno].
Qed.

Lemma before_space_no_space s : has_space s = false → before_space s = s.
Proof.
  induction s as [|c rest IH]; simpl; [reflexivity|].
  destruct (Ascii.eqb c " "); simpl; [discriminate|].
  intros H. by rewrite IH.
Qed.

Lemma after_space_no_space s : has_space s = false → after_space s = EmptyString.
Proof.
  induction s as [|c rest IH]; simpl; [reflexivity|].
  destruct (Ascii.eqb c " "); simpl; [discriminate|exact IH].
Qed.
End SplitName.

(** C6 (as amended).  The Loader copies id and email, sets department to
    "General", takes as firstName the part of the name before its first
    space and as lastName the part between the first space and the next
    one (the second piece of the name split at every space): the remainder
    after the first space when that remainder holds no further space, and
    empty when the name has no space.  The item
    {id:7, name:"Jane Doe", email:"j@d.com"} becomes
    {id:7, firstName:"Jane", lastName:"Doe", email:"j@d.com",
    department:"General"}. *)
Theorem formatUser_splits_name (user : RemoteUser.t) :
  formatUser user =
    User.mk (RemoteUser.id user)
            (before_space (RemoteUser.name user))
            (before_space (after_space (RemoteUser.name user)))
            (RemoteUser.email user) "General"
  ∧ (has_space (after_space (RemoteUser.name user)) = false →
     User.lastName (formatUser user) = after_space (RemoteUser.name user))
  ∧ (has_space (RemoteUser.name user) = false →
     User.firstName (formatUser user) = RemoteUser.name user
     ∧ User.lastName (formatUser user) = EmptyString)
  ∧ formatUser (RemoteUser.mk 7 "Jane Doe" "j@d.com") =
      User.mk 7 "Jane" "Doe" "j@d.com" "General".
Proof.
  assert (H : formatUser user =
    User.mk (RemoteUser.id user)
            (before_space (RemoteUser.name user))
            (before_space (after_space (RemoteUser.name user)))
            (RemoteUser.email user) "General").
  { unfold formatUser. by rewrite first_piece_split, second_piece_split. }
  split; [exact H|]. rewrite H. simpl. split; [|split].
  - apply before_space_no_space.
  - intros Hno. rewrite (after_space_no_space _ Hno). split; [|reflexivity].
    by apply before_space_no_space.
  - reflexivity.
Qed.

Lemma formatUser_splits_name_witness :
  User.lastName (formatUser (RemoteUser.mk 7 "Jane Doe" "j@d.com")) = "Doe"
  ∧ User.firstName (formatUser (RemoteUser.mk 3 "Cher" "c@d.com")) = "Cher".
Proof.
  split.
  - exact (proj1 (proj2 (formatUser_splits_name
                           (RemoteUser.mk 7 "Jane Doe" "j@d.com"))) eq_refl).
  - exact (proj1 (proj1 (proj2 (proj2 (formatUser_splits_name
                           (RemoteUser.mk 3 "Cher" "c@d.com")))) eq_refl)).
Defined.

(** C6 as stated fails on a name of three words: the remainder after the
    first space of "Mrs. Dennis Schulist" is "Dennis Schulist", and the
    Loader stores "Dennis". *)
Lemma formatUser_lastName_remainder_counterexample :
  after_space "Mrs. Dennis Schulist" = "Dennis Schulist"
  ∧ formatUser (RemoteUser.mk 6 "Mrs. Dennis Schulist" "k@j.info") =
      User.mk 6 "Mrs." "Dennis" "k@j.info" "General"
  ∧ User.lastName (formatUser (RemoteUser.mk 6 "Mrs. Dennis Schulist" "k@j.info"))
    ≠ after_space "Mrs. Dennis Schulist".
Proof. repeat split. discriminate. Qed.

(** C8.  When the read of the mount effect fails (no response, or a
    response whose status is not 2xx), the only change to the state is the
    error message "Failed to fetch users.": the Store stays empty, and the
    one request of the effect is the only request made. *)
Theorem mount_fetch_failure (net : nat → AxiosOutcome) :
  (net 0%nat = NetworkError
   ∨ ∃ status data, net 0%nat = Response status data
                    ∧ ¬ (200 ≤ status < 300)) →
  mount net =
    (mkState [] false FormData.blank "Failed to fetch users." false 1,
     [usersUrl])
  ∧ users (fst (mount net)) = []
  ∧ length (snd (mount net)) = 1%nat
  ∧ ∀ s, commit s (fst (run net 0 fetchUsers)) =
           mkState (users s) (showModal s) (formData s)
                   "Failed to fetch users." (editing s) (currentPage s).
Proof.
  intros Hfail.
  assert (Hrej : axios_get (net 0%nat) = None).
  { destruct Hfail as [->|(status & data & -> & Hst)]; [reflexivity|].
    simpl. destruct (Z.leb_spec 200 status), (Z.ltb_spec status 300);
      simpl; try reflexivity. lia. }
  unfold mount. simpl. rewrite Hrej. simpl. repeat split.
Qed.

Lemma mount_fetch_failure_witness :
  mount (fun _ => Response 503 (Array [])) =
    (mkState [] false FormData.blank "Failed to fetch users." false 1,
     [usersUrl])
  ∧ mount (fun _ => NetworkError) =
    (mkState [] false FormData.blank "Failed to fetch users." false 1,
     [usersUrl]).
Proof.
  split.
  - apply (mount_fetch_failure (fun _ => Response 503 (Array []))).
    right. exists 503, (Array []). split; [reflexivity|lia].
  - apply (mount_fetch_failure (fun _ => NetworkError)).
    left. reflexivity.
Defined.

(** ** Edit *)

Section EditUser.
Implicit Types (s : State) (u : User.t) (fd : FormData.t).

Lemma idMatches_true u fd :
  idMatches u fd = true ↔ FormData.id fd = Some (User.id u).
Proof.
  unfold idMatches. destruct (FormData.id fd) as [i|].
  - rewrite Z.eqb_eq. split; [by intros ->|by intros [= ->]].
  - split; discriminate.
Qed.

Lemma idMatches_false u fd :
  idMatches u fd = false ↔ FormData.id fd ≠ Some (User.id u).
Proof.
  rewrite <- idMatches_true. destruct (idMatches u fd); split; congruence.
Qed.

Lemma editRecord_id fd u : User.id (editRecord fd u) = User.id u.
Proof. unfold editRecord. by destruct (idMatches u fd). Qed.

Lemma editRecord_other fd (l : list User.t) :
  Forall (fun u => FormData.id fd ≠ Some (User.id u)) l →
  editRecord fd <$> l = l.
Proof.
  induction 1 as [|u l Hu _ IH]; [reflexivity|].
  rewrite fmap_cons, IH. unfold editRecord.
  apply idMatches_false in Hu. by rewrite Hu.
Qed.

Lemma dispatch_handleEditUser s :
  dispatch handleEditUser s =
    mkState (editRecord (formData s) <$> users s) false FormData.blank
            (error s) false (currentPage s).
Proof. reflexivity. Qed.

(** In a Store with unique ids the records around one record have other
    ids. *)
Lemma NoDup_ids_middle (l1 l2 : list User.t) u :
  NoDup (ids (l1 ++ u :: l2)) →
  Forall (fun v => User.id v ≠ User.id u) l1
  ∧ Forall (fun v => User.id v ≠ User.id u) l2.
Proof.
  unfold ids. rewrite fmap_app, fmap_cons.
  intros Hnd. apply NoDup_app in Hnd as (_ & Hl1 & Hnd).
  apply NoDup_cons in Hnd as [Hl2 _].
  split; apply Forall_forall; intros v Hv Heq.
  - apply (Hl1 (User.id v)); [by apply list_elem_of_fmap_2|].
    rewrite Heq. left.
  - apply Hl2. rewrite <- Heq. by apply list_elem_of_fmap_2.
Qed.
End EditUser.

(** C4.  Edit keeps the length and the order of the Store and the id at
    every position.  A record whose id is the draft's id gets the draft's
    four field values; a record with another id is left as it is.  In a
    Store with unique ids that is exactly one record.  When no record has
    the draft's id the Store is unchanged. *)
Theorem handleEditUser_replaces_match (s : State) :
  let s' := dispatch handleEditUser s in
  let fd := formData s in
  length (users s') = length (users s)
  ∧ ids (users s') = ids (users s)
  ∧ (∀ (k : nat) u, users s !! k = Some u →
       FormData.id fd = Some (User.id u) →
       users s' !! k =
         Some (User.mk (User.id u) (FormData.firstName fd) (FormData.lastName fd)
                       (FormData.email fd) (FormData.department fd)))
  ∧ (∀ (k : nat) u, users s !! k = Some u →
       FormData.id fd ≠ Some (User.id u) → users s' !! k = Some u)
  ∧ (∀ l1 u l2, users s = l1 ++ u :: l2 → NoDup (ids (users s)) →
       FormData.id fd = Some (User.id u) →
       users s' = l1 ++ draftRecord (User.id u) fd :: l2)
  ∧ ((∀ u, u ∈ users s → FormData.id fd ≠ Some (User.id u)) →
     users s' = users s).
Proof.
  intros s' fd. subst s'. rewrite dispatch_handleEditUser. simpl. fold fd.
  split; [apply length_fmap|]. split; [|split; [|split; [|split]]].
  - unfold ids. rewrite <- list_fmap_compose. apply list_fmap_ext.
    intros _ u _. apply editRecord_id.
  - intros k u Hk Hid. rewrite list_lookup_fmap, Hk. simpl.
    unfold editRecord. apply idMatches_true in Hid. by rewrite Hid.
  - intros k u Hk Hid. rewrite list_lookup_fmap, Hk. simpl.
    unfold editRecord. apply idMatches_false in Hid. by rewrite Hid.
  - intros l1 u l2 Hus Hnd Hid. rewrite Hus in Hnd |- *.
    apply NoDup_ids_middle in Hnd as [H1 H2].
    rewrite fmap_app, fmap_cons.
    rewrite !editRecord_other.
    + unfold editRecord. apply idMatches_true in Hid. by rewrite Hid.
    + eapply Forall_impl; [exact H2|]. simpl. intros v Hv. rewrite Hid. congruence.
    + eapply Forall_impl; [exact H1|]. simpl. intros v Hv. rewrite Hid. congruence.
  - intros Hno. apply editRecord_other. by apply Forall_forall.
Qed.

Lemma handleEditUser_replaces_match_witness :
  users (dispatch handleEditUser editingSecond) =
    [User.mk 1 "Ann" "Lee" "ann@x.org" "Ops";
     User.mk 2 "Rob" "Roy" "rob@x.org" "Art"]
  ∧ users (dispatch handleEditUser editingMissing) = users editingMissing.
Proof.
  split.
  - apply (proj1 (proj2 (proj2 (proj2 (proj2
             (handleEditUser_replaces_match editingSecond)))))
             [User.mk 1 "Ann" "Lee" "ann@x.org" "Ops"]
             (User.mk 2 "Bob" "Ray" "bob@x.org" "Lab") []).
    + reflexivity.
    + apply (bool_decide_unpack _). vm_compute. exact I.
    + reflexivity.
  - apply (proj2 (proj2 (proj2 (proj2 (proj2
             (handleEditUser_replaces_match editingMissing)))))).
    intros u Hu. apply list_elem_of_singleton in Hu as ->. discriminate.
Defined.

(** C9.  Edit checks nothing about the fields: whatever the draft holds,
    empty fields included, every record with the draft's id gets the
    draft's values, the modal closes, the draft is cleared, and the error
    message is left as it was. *)
Theorem handleEditUser_no_validation (s : State) :
  dispatch handleEditUser s =
    mkState (editRecord (formData s) <$> users s) false FormData.blank
            (error s) false (currentPage s)
  ∧ error (dispatch handleEditUser s) = error s
  ∧ (∀ u, u ∈ users s → FormData.id (formData s) = Some (User.id u) →
       User.mk (User.id u) (FormData.firstName (formData s))
               (FormData.lastName (formData s)) (FormData.email (formData s))
               (FormData.department (formData s))
         ∈ users (dispatch handleEditUser s)).
Proof.
  split; [reflexivity|]. split; [reflexivity|].
  intros u Hu Hid. rewrite dispatch_handleEditUser. simpl.
  apply list_elem_of_fmap. exists u. split; [|exact Hu].
  unfold editRecord. apply idMatches_true in Hid. by rewrite Hid.
Qed.

Lemma handleEditUser_no_validation_witness :
  anyFieldEmpty (formData editingWiped) = true
  ∧ User.mk 2 EmptyString EmptyString EmptyString EmptyString
      ∈ users (dispatch handleEditUser editingWiped)
  ∧ error (dispatch handleEditUser editingWiped) = EmptyString.
Proof.
  split; [reflexivity|]. split; [|reflexivity].
  apply (proj2 (proj2 (handleEditUser_no_validation editingWiped))
           (User.mk 2 "Bob" "Ray" "bob@x.org" "Lab")).
  - right. left.
  - reflexivity.
Defined.

(** ** Delete *)

Section DeleteUser.
Implicit Types (s : State) (u : User.t) (us : list User.t) (i : Z).

Lemma dispatch_handleDeleteUser i s :
  dispatch (handleDeleteUser i) s =
    mkState (keepOthers i (users s)) (showModal s) (formData s) (error s)
            (editing s) (currentPage s).
Proof. reflexivity. Qed.

Lemma keepOthers_all i us :
  Forall (fun u => User.id u ≠ i) us → keepOthers i us = us.
Proof.
  induction 1 as [|u us Hu _ IH]; [reflexivity|].
  rewrite filter_cons_True by exact Hu. by rewrite IH.
Qed.

Lemma keepOthers_Forall i us : Forall (fun u => User.id u ≠ i) (keepOthers i us).
Proof.
  apply Forall_forall. intros u Hu.
  by apply list_elem_of_filter in Hu as [Hne _].
Qed.

Lemma keepOthers_absent i us : i ∉ ids us → keepOthers i us = us.
Proof.
  intros Hno. apply keepOthers_all, Forall_forall. intros u Hu Heq.
  apply Hno. rewrite <- Heq. by apply list_elem_of_fmap_2.
Qed.

Lemma keepOthers_ids i us : i ∉ ids (keepOthers i us).
Proof.
  intros Hin. apply list_elem_of_fmap in Hin as (u & Heq & Hu).
  apply list_elem_of_filter in Hu as [Hne _]. congruence.
Qed.
End DeleteUser.

(** C7 (as amended).  Delete(id) takes out every record whose id is that
    id and no other record: what is left are the records with other ids,
    in their order.  In a Store with unique ids that is exactly one record
    when there is one with that id: the records before and after it stay.
    When no record has that id the Store is unchanged. *)
Theorem handleDeleteUser_removes_match (i : Z) (s : State) :
  let s' := dispatch (handleDeleteUser i) s in
  (∀ u, u ∈ users s' ↔ u ∈ users s ∧ User.id u ≠ i)
  ∧ sublist (users s') (users s)
  ∧ (length (users s) =
     length (users s') + length (filter (fun u => User.id u = i) (users s)))%nat
  ∧ (NoDup (ids (users s)) →
     ∀ l1 u l2, users s = l1 ++ u :: l2 → User.id u = i →
       users s' = l1 ++ l2 ∧ length (users s) = S (length (users s')))
  ∧ (i ∉ ids (users s) → users s' = users s).
Proof.
  intros s'. subst s'. rewrite dispatch_handleDeleteUser. simpl.
  split; [|split; [|split; [|split]]].
  - intros u. rewrite list_elem_of_filter. tauto.
  - apply sublist_filter.
  - induction (users s) as [|u us IH]; [reflexivity|].
    rewrite !filter_cons. destruct (decide (User.id u ≠ i)) as [Hne|He].
    + rewrite decide_False by exact Hne. simpl. lia.
    + rewrite decide_True by (by destruct (decide (User.id u = i))).
      simpl. lia.
  - intros Hnd l1 u l2 Hus <-. rewrite Hus in Hnd |- *.
    apply NoDup_ids_middle in Hnd as [H1 H2].
    rewrite filter_app, filter_cons_False; [|intros H; by apply H].
    rewrite !keepOthers_all by assumption.
    split; [reflexivity|]. rewrite !length_app. simpl. lia.
  - apply keepOthers_absent.
Qed.

Lemma handleDeleteUser_removes_match_witness :
  users (dispatch (handleDeleteUser 1) scenarioStore) =
    [User.mk 2 "Bob" "Ray" "bob@x.org" "Lab"]
  ∧ users (dispatch (handleDeleteUser 9) scenarioStore) = users scenarioStore.
Proof.
  assert (Hnd : NoDup (ids (users scenarioStore))).
  { apply (bool_decide_unpack _). vm_compute. exact I. }
  split.
  - apply (proj1 (proj2 (proj2 (proj2
             (handleDeleteUser_removes_match 1 scenarioStore)))) Hnd
             [] (User.mk 1 "Ann" "Lee" "ann@x.org" "Ops")
             [User.mk 2 "Bob" "Ray" "bob@x.org" "Lab"]); reflexivity.
  - apply (proj2 (proj2 (proj2 (proj2
             (handleDeleteUser_removes_match 9 scenarioStore))))).
    apply (bool_decide_unpack _). vm_compute. exact I.
Defined.

(** C7 as stated fails on [duplicateStore], where two of the three records
    carry the id 1: Delete(1) removes both, not exactly one. *)
Lemma handleDeleteUser_removes_match_counterexample :
  ids (users duplicateStore) = [1; 2; 1]
  ∧ users (dispatch (handleDeleteUser 1) duplicateStore) =
      [User.mk 2 "Bob" "Ray" "bob@x.org" "Lab"]
  ∧ length (users duplicateStore) = 3%nat
  ∧ length (users (dispatch (handleDeleteUser 1) duplicateStore)) = 1%nat
  ∧ length (users duplicateStore)
    ≠ S (length (users (dispatch (handleDeleteUser 1) duplicateStore))).
Proof. repeat split. discriminate. Qed.

(** C10.  Delete(id) applied twice gives the state of applying it once;
    Delete of an id that no record has changes nothing; after Delete(id) no
    record with that id is left, however many there were, and the records
    with other ids are all kept, in their order. *)
Theorem handleDeleteUser_idempotent (i : Z) (s : State) :
  dispatch (handleDeleteUser i) (dispatch (handleDeleteUser i) s) =
    dispatch (handleDeleteUser i) s
  ∧ (i ∉ ids (users s) → dispatch (handleDeleteUser i) s = s)
  ∧ (i ∉ ids (users (dispatch (handleDeleteUser i) s)))
  ∧ (∀ u, u ∈ users (dispatch (handleDeleteUser i) s) ↔
          u ∈ users s ∧ User.id u ≠ i)
  ∧ sublist (users (dispatch (handleDeleteUser i) s)) (users s).
Proof.
  rewrite !dispatch_handleDeleteUser. simpl. split; [|split; [|split; [|split]]].
  - f_equal. apply keepOthers_all, keepOthers_Forall.
  - intros Hno. rewrite keepOthers_absent by exact Hno. by destruct s.
  - apply keepOthers_ids.
  - intros u. rewrite list_elem_of_filter. tauto.
  - apply sublist_filter.
Qed.

Lemma handleDeleteUser_idempotent_witness :
  dispatch (handleDeleteUser 9) duplicateStore = duplicateStore
  ∧ users (dispatch (handleDeleteUser 1) duplicateStore) =
      [User.mk 2 "Bob" "Ray" "bob@x.org" "Lab"].
Proof.
  split; [|reflexivity].
  apply (proj1 (proj2 (handleDeleteUser_idempotent 9 duplicateStore))).
  apply (bool_decide_unpack _). vm_compute. exact I.
Defined.

(** * Further properties of the component *)

(** ** Loader: a fulfilled read *)

Section LoaderSuccess.
Implicit Types (s : string) (data : list RemoteUser.t).

Lemma before_space_clean s : has_space (before_space s) = false.
Proof.
  induction s as [|c rest IH]; simpl; [reflexivity|].
  destruct (Ascii.eqb c " ") eqn:E; simpl; [reflexivity|]. by rewrite E.
Qed.

Lemma append_cancel_l (p a b : string) :
  (p ++ a)%string = (p ++ b)%string → a = b.
Proof. induction p as [|c p IH]; simpl; [done|]. intros [= H]. by apply IH. Qed.

Lemma formatUser_unfold (user : RemoteUser.t) :
  formatUser user =
    User.mk (RemoteUser.id user)
            (before_space (RemoteUser.name user))
            (before_space (after_space (RemoteUser.name user)))
            (RemoteUser.email user) "General".
Proof. unfold formatUser. by rewrite first_piece_split, second_piece_split. Qed.

Lemma ids_formatUser data : ids (formatUser <$> data) = RemoteUser.id <$> data.
Proof.
  unfold ids. rewrite <- list_fmap_compose. apply list_fmap_ext.
  intros _ user _. reflexivity.
Qed.

Lemma axios_get_Some status (body : Body) :
  200 ≤ status < 300 → axios_get (Response status body) = Some body.
Proof.
  intros [Hlo Hhi]. simpl.
  destruct (Z.leb_spec 200 status), (Z.ltb_spec status 300); try lia.
  reflexivity.
Qed.

(** A body of well-formed items is formatted item by item. *)
Lemma formattedUsers_objects data :
  formattedUsers (Array (Object <$> data)) = Some (formatUser <$> data).
Proof.
  simpl. induction data as [|user data IH]; [reflexivity|].
  rewrite !fmap_cons. cbn [mapM formatItem]. by rewrite IH.
Qed.

(** One malformed item makes the mapping throw. *)
Lemma formattedUsers_malformed (items : list RemoteItem) :
  Malformed ∈ items → formattedUsers (Array items) = None.
Proof.
  simpl. induction items as [|item items IH]; intros Hin.
  - by apply elem_of_nil in Hin.
  - cbn [mapM]. apply elem_of_cons in Hin as [<-|Hin]; [reflexivity|].
    rewrite (IH Hin). by destruct (formatItem item).
Qed.

(** The records of a formatted body are the formatted objects of the
    body, which then holds no malformed item. *)
Lemma formattedUsers_Some (items : list RemoteItem) formatted :
  formattedUsers (Array items) = Some formatted →
  ∃ data, items = Object <$> data ∧ formatted = formatUser <$> data.
Proof.
  simpl. revert formatted. induction items as [|item items IH]; intros formatted.
  - intros [= <-]. by exists [].
  - cbn [mapM]. destruct item as [user|]; [|discriminate].
    cbn [formatItem mbind option_bind].
    destruct (mapM formatItem items) as [rest|] eqn:E; [|discriminate].
    intros [= <-]. destruct (IH rest eq_refl) as (data & -> & ->).
    by exists (user :: data).
Qed.
End LoaderSuccess.

(** X1.  When the read of the mount effect is answered with a 2xx status
    and the body is an array of objects with string names, the Store
    becomes the formatted items, one record per item, in the order and
    with the ids of the items, every department "General"; no other state
    cell changes and one request is made.  The replacement is wholesale:
    whatever the Store held when the read settles is gone.  When the body
    of a 2xx answer is not an array, or one of its items has no string
    name, the mapping throws: the Store is left as it was and the error
    message "Failed to fetch users." is set. *)
Theorem fetch_success_replaces_store
    (net : nat → AxiosOutcome) (status : Z) (body : Body) :
  net 0%nat = Response status body → 200 ≤ status < 300 →
  (∀ data, body = Array (Object <$> data) →
     mount net =
       (mkState (formatUser <$> data) false FormData.blank EmptyString false 1,
        [usersUrl])
     ∧ (∀ s, commit s (fetchSettled (net 0%nat)) =
             mkState (formatUser <$> data) (showModal s) (formData s)
                     (error s) (editing s) (currentPage s))
     ∧ length (formatUser <$> data) = length data
     ∧ ids (formatUser <$> data) = RemoteUser.id <$> data
     ∧ Forall (fun u => User.department u = "General") (formatUser <$> data))
  ∧ (body = NotArray ∨ (∃ items, body = Array items ∧ Malformed ∈ items) →
     mount net =
       (mkState [] false FormData.blank "Failed to fetch users." false 1,
        [usersUrl])
     ∧ (∀ s, commit s (fetchSettled (net 0%nat)) =
             mkState (users s) (showModal s) (formData s)
                     "Failed to fetch users." (editing s) (currentPage s))).
Proof.
  intros Hnet Hst. pose proof (axios_get_Some status body Hst) as Hget.
  split.
  - intros data ->. pose proof (formattedUsers_objects data) as Hfmt.
    split; [|split; [|split; [|split]]].
    + unfold mount. cbn [run fetchUsers]. by rewrite Hnet, Hget, Hfmt.
    + intros s. unfold fetchSettled. cbn [run fetchUsers fst].
      by rewrite Hnet, Hget, Hfmt.
    + apply length_fmap.
    + apply ids_formatUser.
    + apply Forall_fmap, Forall_forall. intros user _. reflexivity.
  - intros Hbad.
    assert (Hfmt : formattedUsers body = None).
    { destruct Hbad as [->|(items & -> & Hin)]; [reflexivity|].
      by apply formattedUsers_malformed. }
    split.
    + unfold mount. cbn [run fetchUsers]. by rewrite Hnet, Hget, Hfmt.
    + intros s. unfold fetchSettled. cbn [run fetchUsers fst].
      by rewrite Hnet, Hget, Hfmt.
Qed.

Lemma fetch_success_replaces_store_witness :
  users (commit scenarioStore (fetchSettled twoItems)) =
    [User.mk 1 "Leanne" "Graham" "l@april.biz" "General";
     User.mk 6 "Mrs." "Dennis" "k@j.info" "General"]
  ∧ mount (fun _ => Response 204 NotArray) =
      (mkState [] false FormData.blank "Failed to fetch users." false 1,
       [usersUrl]).
Proof.
  split.
  - refine (f_equal users
              (proj1 (proj2 (proj1 (fetch_success_replaces_store
                               (fun _ => twoItems) 200 _ eq_refl _)
                        [RemoteUser.mk 1 "Leanne Graham" "l@april.biz";
                         RemoteUser.mk 6 "Mrs. Dennis Schulist" "k@j.info"]
                        eq_refl))
                     scenarioStore)).
    lia.
  - refine (proj1 (proj2 (fetch_success_replaces_store
                            (fun _ => Response 204 NotArray) 204 NotArray
                            eq_refl _) _)).
    + lia.
    + by left.
Defined.

(** X2.  The names the Loader stores never hold a space.  A name of two
    words is kept whole: firstName, a space and lastName spell the name.
    A name with a space after its second word is not: the words after the
    second are dropped. *)
Theorem formatUser_name_kept_or_cut (user : RemoteUser.t) :
  let name := RemoteUser.name user in
  let rebuilt := (User.firstName (formatUser user) ++ " "
                  ++ User.lastName (formatUser user))%string in
  has_space (User.firstName (formatUser user)) = false
  ∧ has_space (User.lastName (formatUser user)) = false
  ∧ (has_space name = true → has_space (after_space name) = false →
     rebuilt = name)
  ∧ (has_space (after_space name) = true → rebuilt ≠ name).
Proof.
  intros name rebuilt. subst rebuilt. rewrite formatUser_unfold. simpl.
  fold name. split; [apply before_space_clean|].
  split; [apply before_space_clean|]. split.
  - intros Hsp Hone. rewrite (before_space_no_space _ Hone).
    symmetry. by apply name_cut.
  - intros Hmore Heq.
    assert (Hsp : has_space name = true).
    { destruct (has_space name) eqn:E; [reflexivity|].
      by rewrite (after_space_no_space _ E) in Hmore. }
    destruct (name_cut name Hsp) as [Hcut _].
    rewrite Hcut in Heq at 3. apply append_cancel_l in Heq.
    injection Heq as Heq.
    pose proof (before_space_clean (after_space name)) as Hclean.
    rewrite Heq in Hclean. congruence.
Qed.

Lemma formatUser_name_kept_or_cut_witness :
  (User.firstName (formatUser (RemoteUser.mk 1 "Leanne Graham" "l@april.biz"))
   ++ " "
   ++ User.lastName (formatUser (RemoteUser.mk 1 "Leanne Graham" "l@april.biz")))%string
  = "Leanne Graham"
  ∧ (User.firstName (formatUser (RemoteUser.mk 6 "Mrs. Dennis Schulist" "k@j.info"))
     ++ " "
     ++ User.lastName (formatUser (RemoteUser.mk 6 "Mrs. Dennis Schulist" "k@j.info")))%string
    ≠ "Mrs. Dennis Schulist".
Proof.
  split.
  - exact (proj1 (proj2 (proj2 (formatUser_name_kept_or_cut
             (RemoteUser.mk 1 "Leanne Graham" "l@april.biz")))) eq_refl eq_refl).
  - exact (proj2 (proj2 (proj2 (formatUser_name_kept_or_cut
             (RemoteUser.mk 6 "Mrs. Dennis Schulist" "k@j.info")))) eq_refl).
Defined.

(** ** Form controller *)

Section Form.
Implicit Types (s : State) (u : User.t) (fd : FormData.t) (f g : Field).

Lemma dispatch_handleFormChange f (v : string) s :
  dispatch (handleFormChange (fieldName f) v) s =
    mkState (users s) (showModal s)
      (FormData.mk (FormData.id (formData s))
         (match f with firstNameInput => v | _ => FormData.firstName (formData s) end)
         (match f with lastNameInput => v | _ => FormData.lastName (formData s) end)
         (match f with emailInput => v | _ => FormData.email (formData s) end)
         (match f with departmentInput => v | _ => FormData.department (formData s) end))
      (error s) (editing s) (currentPage s).
Proof. by destruct f. Qed.

(** Typing changes the draft only. *)
Lemma typing_frame (changes : list (Field * string)) s :
  users (typing changes s) = users s
  ∧ showModal (typing changes s) = showModal s
  ∧ error (typing changes s) = error s
  ∧ editing (typing changes s) = editing s
  ∧ currentPage (typing changes s) = currentPage s
  ∧ FormData.id (formData (typing changes s)) = FormData.id (formData s).
Proof.
  revert s. induction changes as [|[f v] changes IH]; intros s; [done|].
  unfold typing in *. simpl.
  destruct (IH (dispatch (handleFormChange (fieldName f) v) s))
    as (-> & -> & -> & -> & -> & ->).
  rewrite dispatch_handleFormChange. done.
Qed.

Lemma fillForm_unfold fd s :
  fillForm fd s =
    mkState (users s) (showModal s)
      (FormData.mk (FormData.id (formData s)) (FormData.firstName fd)
                   (FormData.lastName fd) (FormData.email fd)
                   (FormData.department fd))
      (error s) (editing s) (currentPage s).
Proof. reflexivity. Qed.

Lemma dispatch_handleOpenModal_edit u s :
  User.id u ≠ 0 →
  dispatch (handleOpenModal (Some u)) s =
    mkState (users s) true (draftOf u) (error s) true (currentPage s).
Proof.
  intros Hid. unfold dispatch, handleOpenModal.
  destruct (Z.eqb_spec (User.id u) 0); [contradiction|reflexivity].
Qed.

Lemma dispatch_handleOpenModal_add s :
  dispatch (handleOpenModal None) s =
    mkState (users s) true FormData.blank (error s) false (currentPage s).
Proof. reflexivity. Qed.

(** Replacing the one record with a given id in a Store with unique ids. *)
Lemma editRecord_middle fd (l1 l2 : list User.t) u :
  NoDup (ids (l1 ++ u :: l2)) → FormData.id fd = Some (User.id u) →
  editRecord fd <$> (l1 ++ u :: l2) = l1 ++ draftRecord (User.id u) fd :: l2.
Proof.
  intros Hnd Hid. apply NoDup_ids_middle in Hnd as [H1 H2].
  rewrite fmap_app, fmap_cons, !editRecord_other.
  - unfold editRecord. apply idMatches_true in Hid. by rewrite Hid.
  - eapply Forall_impl; [exact H2|]. simpl. intros v Hv. rewrite Hid. congruence.
  - eapply Forall_impl; [exact H1|]. simpl. intros v Hv. rewrite Hid. congruence.
Qed.
End Form.

(** X3.  A change event of an input writes that input's field of the
    draft and nothing else: the value is read back from the field, the
    draft's id and the other state cells are untouched, a second change of
    the same input overwrites the first, and changes of different inputs
    can be swapped. *)
Theorem handleFormChange_writes_one_field (f g : Field) (v w : string) (s : State) :
  let change f v := dispatch (handleFormChange (fieldName f) v) in
  fieldValue f (formData (change f v s)) = v
  ∧ (f ≠ g → fieldValue g (formData (change f v s)) = fieldValue g (formData s))
  ∧ FormData.id (formData (change f v s)) = FormData.id (formData s)
  ∧ change f v s =
      mkState (users s) (showModal s) (formData (change f v s)) (error s)
              (editing s) (currentPage s)
  ∧ change f v (change f w s) = change f v s
  ∧ (f ≠ g → change f v (change g w s) = change g w (change f v s)).
Proof.
  intros change. subst change. cbv beta.
  rewrite !dispatch_handleFormChange.
  cbn [formData users showModal error editing currentPage FormData.id
       FormData.firstName FormData.lastName FormData.email
       FormData.department].
  split; [by destruct f|]. split; [by destruct f, g|]. split; [done|].
  split; [done|]. split; [by destruct f|].
  intros Hne. destruct f, g; try done.
Qed.

Lemma handleFormChange_writes_one_field_witness :
  dispatch (handleFormChange "email" "a@b.org")
    (dispatch (handleFormChange "department" "Lab") scenarioStore)
  = dispatch (handleFormChange "department" "Lab")
      (dispatch (handleFormChange "email" "a@b.org") scenarioStore).
Proof.
  apply (proj2 (proj2 (proj2 (proj2 (proj2
           (handleFormChange_writes_one_field emailInput departmentInput
              "a@b.org" "Lab" scenarioStore)))))).
  discriminate.
Defined.

(** X4.  Closing the modal after opening it and typing anything leaves the
    Store and the current page as they were, hides the modal and clears
    the error message; the typed draft and the mode flag are kept as they
    are, and the next opening of the form starts from the record it is
    given or from the blank draft, not from what was typed. *)
Theorem handleCloseModal_keeps_store
    (o o' : option User.t) (changes : list (Field * string)) (s : State) :
  let typed := typing changes (dispatch (handleOpenModal o) s) in
  let closed := dispatch handleCloseModal typed in
  users closed = users s
  ∧ currentPage closed = currentPage s
  ∧ showModal closed = false
  ∧ error closed = EmptyString
  ∧ formData closed = formData typed
  ∧ editing closed = editing typed
  ∧ formData (dispatch (handleOpenModal o') closed) =
      formData (dispatch (handleOpenModal o') s).
Proof.
  intros typed closed. subst closed typed.
  destruct (typing_frame changes (dispatch (handleOpenModal o) s))
    as (Hu & _ & _ & _ & Hp & _).
  cbn [dispatch handleCloseModal commit fold_left apply_update users currentPage
       showModal error formData editing].
  rewrite Hu, Hp.
  split; [by destruct o as [u|]; [unfold dispatch, handleOpenModal;
                                  destruct (User.id u =? 0)|]|].
  split; [by destruct o as [u|]; [unfold dispatch, handleOpenModal;
                                  destruct (User.id u =? 0)|]|].
  repeat split.
  destruct o' as [u|]; [|reflexivity].
  unfold dispatch, handleOpenModal. by destruct (User.id u =? 0).
Qed.

(** X5.  The Edit button of a record whose id is not 0, in a Store with
    unique ids: saving at once gives back the same Store; saving after the
    four fields were typed replaces that record by the typed values under
    its id, at its place, and no other record.  Either way the modal is
    closed, the mode flag is off and the draft is blank afterwards. *)
Theorem edit_through_form (u : User.t) (fd : FormData.t) (s : State)
    (l1 l2 : list User.t) :
  users s = l1 ++ u :: l2 → NoDup (ids (users s)) → User.id u ≠ 0 →
  let opened := dispatch (handleOpenModal (Some u)) s in
  dispatch handleSave opened =
    mkState (users s) false FormData.blank (error s) false (currentPage s)
  ∧ dispatch handleSave (fillForm fd opened) =
    mkState (l1 ++ draftRecord (User.id u) fd :: l2) false FormData.blank
            (error s) false (currentPage s).
Proof.
  intros Hus Hnd Hid opened. subst opened.
  rewrite dispatch_handleOpenModal_edit by exact Hid. rewrite fillForm_unfold.
  unfold dispatch, handleSave.
  cbn [editing handleEditUser commit fold_left apply_update users showModal
       formData error currentPage FormData.id draftOf].
  rewrite Hus in Hnd |- *. split; f_equal.
  - rewrite editRecord_middle; [by destruct u|exact Hnd|reflexivity].
  - rewrite editRecord_middle; [reflexivity|exact Hnd|reflexivity].
Qed.

Lemma edit_through_form_witness :
  users (dispatch handleSave
           (fillForm (FormData.mk None "Rob" "Roy" "rob@x.org" "Art")
              (dispatch (handleOpenModal
                           (Some (User.mk 2 "Bob" "Ray" "bob@x.org" "Lab")))
                        scenarioStore)))
  = [User.mk 1 "Ann" "Lee" "ann@x.org" "Ops";
     User.mk 2 "Rob" "Roy" "rob@x.org" "Art"].
Proof.
  refine (f_equal users
            (proj2 (edit_through_form (User.mk 2 "Bob" "Ray" "bob@x.org" "Lab")
                      (FormData.mk None "Rob" "Roy" "rob@x.org" "Art")
                      scenarioStore
                      [User.mk 1 "Ann" "Lee" "ann@x.org" "Ops"] []
                      eq_refl _ _))).
  - apply (bool_decide_unpack _). vm_compute. exact I.
  - discriminate.
Defined.

(** X6.  The Edit button of a record whose id is 0 opens the Add form: the
    state is the one the Add User button gives, and saving four typed
    non-empty fields appends a new record and leaves the record with id 0
    as it was. *)
Theorem edit_of_id_zero_adds (u : User.t) (fd : FormData.t) (s : State) :
  User.id u = 0 → anyFieldEmpty fd = false →
  dispatch (handleOpenModal (Some u)) s = dispatch (handleOpenModal None) s
  ∧ users (dispatch handleSave
             (fillForm fd (dispatch (handleOpenModal (Some u)) s)))
    = users s ++ [draftRecord (newId (users s)) fd].
Proof.
  intros Hid Hv.
  assert (Hopen : dispatch (handleOpenModal (Some u)) s =
                  dispatch (handleOpenModal None) s).
  { unfold dispatch, handleOpenModal. by rewrite Hid. }
  split; [exact Hopen|]. rewrite Hopen. fold (Add fd s). by apply users_Add.
Qed.

Lemma edit_of_id_zero_adds_witness :
  users (dispatch handleSave
           (fillForm (FormData.mk None "A" "B" "a@b.com" "X")
              (dispatch (handleOpenModal
                           (Some (User.mk 0 "Zed" "Oh" "z@x.org" "Ops")))
                        (mkState [User.mk 0 "Zed" "Oh" "z@x.org" "Ops"] false
                                 FormData.blank EmptyString false 1))))
  = [User.mk 0 "Zed" "Oh" "z@x.org" "Ops"; User.mk 1 "A" "B" "a@b.com" "X"].
Proof.
  exact (proj2 (edit_of_id_zero_adds (User.mk 0 "Zed" "Oh" "z@x.org" "Ops")
                  (FormData.mk None "A" "B" "a@b.com" "X")
                  (mkState [User.mk 0 "Zed" "Oh" "z@x.org" "Ops"] false
                           FormData.blank EmptyString false 1)
                  eq_refl eq_refl)).
Defined.

(** ** Invariants of the mounted component *)

Section Invariants.
Implicit Types (s : State) (ev : Event) (evs : list Event).

Lemma handleEvents_cons ev evs s :
  handleEvents (ev :: evs) s = handleEvents evs (handleEvent ev s).
Proof. reflexivity. Qed.

Lemma handleEvents_app evs1 evs2 s :
  handleEvents (evs1 ++ evs2) s = handleEvents evs2 (handleEvents evs1 s).
Proof. apply fold_left_app. Qed.

(** What a settled read commits. *)
Lemma commit_fetchSettled o s :
  commit s (fetchSettled o) =
    match axios_get o ≫= formattedUsers with
    | Some formatted =>
        mkState formatted (showModal s) (formData s) (error s)
                (editing s) (currentPage s)
    | None =>
        mkState (users s) (showModal s) (formData s) "Failed to fetch users."
                (editing s) (currentPage s)
    end.
Proof.
  unfold fetchSettled. cbn [run fetchUsers fst].
  destruct (axios_get o) as [data|]; [|reflexivity].
  cbn [mbind option_bind]. by destruct (formattedUsers data).
Qed.

Lemma dispatch_handleSave s :
  dispatch handleSave s =
    if editing s then dispatch handleEditUser s else dispatch handleAddUser s.
Proof. unfold dispatch, handleSave. by destruct (editing s). Qed.

Lemma modeAgrees_step ev s : modeAgrees s → modeAgrees (handleEvent ev s).
Proof.
  intros Hm. destruct ev as [|u|u|f v| | |num|o]; cbn [handleEvent].
  - done.
  - unfold dispatch, handleOpenModal.
    destruct (Z.eqb_spec (User.id u) 0) as [|Hne]; [done|].
    unfold modeAgrees. simpl. by exists (User.id u).
  - exact Hm.
  - rewrite dispatch_handleFormChange. exact Hm.
  - rewrite dispatch_handleSave. unfold modeAgrees in Hm.
    destruct (editing s) eqn:He; [done|].
    destruct (anyFieldEmpty (formData s)) eqn:Hv.
    + rewrite dispatch_handleAddUser_invalid by exact Hv.
      unfold modeAgrees. simpl. by rewrite He.
    + rewrite dispatch_handleAddUser_valid by exact Hv.
      unfold modeAgrees. simpl. by rewrite He.
  - exact Hm.
  - exact Hm.
  - rewrite commit_fetchSettled.
    by destruct (axios_get o ≫= formattedUsers).
Qed.

Lemma modeAgrees_steps evs s : modeAgrees s → modeAgrees (handleEvents evs s).
Proof.
  revert s. induction evs as [|ev evs IH]; intros s Hm; [exact Hm|].
  rewrite handleEvents_cons. by apply IH, modeAgrees_step.
Qed.

Lemma ids_editRecord fd (us : list User.t) : ids (editRecord fd <$> us) = ids us.
Proof.
  unfold ids. rewrite <- list_fmap_compose. apply list_fmap_ext.
  intros _ u _. apply editRecord_id.
Qed.

Lemma NoDup_ids_keepOthers i (us : list User.t) :
  NoDup (ids us) → NoDup (ids (keepOthers i us)).
Proof.
  intros Hnd. eapply sublist_NoDup; [exact Hnd|].
  unfold ids. apply fmap_sublist, sublist_filter.
Qed.

Lemma idsBelow_mono b b' (us : list User.t) :
  b ≤ b' → idsBelow b us → idsBelow b' us.
Proof.
  intros Hb H. eapply Forall_impl; [exact H|]. simpl. intros; lia.
Qed.

Lemma maxId_below b (us : list User.t) : 0 < b → idsBelow b us → maxId us < b.
Proof.
  intros Hb H. rewrite maxId_spec.
  destruct (max_existing_id us) as [m|] eqn:E; [|lia].
  apply max_existing_id_greatest in E as [Hin _].
  unfold idsBelow in H. rewrite Forall_forall in H. specialize (H _ Hin). lia.
Qed.

Lemma remoteIdsDistinctBelow_mono b b' ev :
  b ≤ b' → remoteIdsDistinctBelow b ev → remoteIdsDistinctBelow b' ev.
Proof.
  intros Hb. destruct ev as [|u|u|f v| | |num|o]; try done. simpl.
  destruct (axios_get o) as [data|]; [|done].
  destruct (formattedUsers data); [|done].
  intros [Hnd Hlt]. split; [exact Hnd|]. by eapply idsBelow_mono.
Qed.

(** One event keeps the ids unique and moves their bound by at most 1. *)
Lemma NoDup_ids_step b ev s :
  0 < b < 2 ^ 53 → remoteIdsDistinctBelow b ev →
  NoDup (ids (users s)) ∧ idsBelow b (users s) →
  NoDup (ids (users (handleEvent ev s)))
  ∧ idsBelow (b + 1) (users (handleEvent ev s)).
Proof.
  intros Hb Hev [Hnd Hlt].
  assert (Hlt' : idsBelow (b + 1) (users s))
    by (eapply idsBelow_mono; [|done]; lia).
  destruct ev as [|u|u|f v| | |num|o]; cbn [handleEvent].
  - done.
  - unfold dispatch, handleOpenModal. by destruct (User.id u =? 0).
  - rewrite dispatch_handleDeleteUser. cbn [users]. split.
    + by apply NoDup_ids_keepOthers.
    + unfold idsBelow, ids in *. rewrite Forall_fmap in Hlt' |- *.
      eapply Forall_impl; [|done].
      apply Forall_forall. intros x Hx.
      apply list_elem_of_filter in Hx as [_ Hx].
      rewrite Forall_forall in Hlt'. by apply Hlt'.
  - by rewrite dispatch_handleFormChange.
  - rewrite dispatch_handleSave. destruct (editing s).
    + rewrite dispatch_handleEditUser. cbn [users]. unfold idsBelow.
      by rewrite ids_editRecord.
    + destruct (anyFieldEmpty (formData s)) eqn:Hv.
      * by rewrite dispatch_handleAddUser_invalid.
      * rewrite dispatch_handleAddUser_valid by exact Hv. cbn [users].
        pose proof (maxId_below b (users s) ltac:(lia) Hlt) as Hmax.
        assert (Hnew : newId (users s) = maxId (users s) + 1)
          by (apply newId_exact; lia).
        split.
        -- apply NoDup_ids_snoc; [exact Hnd|]. simpl. rewrite Hnew.
           eapply Forall_impl; [apply maxId_upper|]. simpl. intros; lia.
        -- unfold idsBelow. rewrite ids_snoc. apply Forall_app.
           split; [exact Hlt'|].
           constructor; [|constructor]. simpl. lia.
  - done.
  - done.
  - rewrite commit_fetchSettled. simpl in Hev.
    destruct (axios_get o) as [data|]; cbn [mbind option_bind]; [|done].
    destruct (formattedUsers data) as [formatted|]; [|done].
    cbn [users]. destruct Hev as [Hnd' Hb']. split; [exact Hnd'|].
    eapply idsBelow_mono; [|exact Hb']. lia.
Qed.

Lemma NoDup_ids_steps evs b s :
  0 < b → b + Z.of_nat (length evs) ≤ 2 ^ 53 →
  Forall (remoteIdsDistinctBelow b) evs →
  NoDup (ids (users s)) ∧ idsBelow b (users s) →
  NoDup (ids (users (handleEvents evs s)))
  ∧ idsBelow (b + Z.of_nat (length evs)) (users (handleEvents evs s)).
Proof.
  intros Hpos Hb Hevs. revert b Hpos Hb Hevs s.
  induction evs as [|ev evs IH]; intros b Hpos Hb Hevs s Hs.
  - simpl. by rewrite Z.add_0_r.
  - simpl length in *. apply Forall_cons in Hevs as [Hev Hevs].
    rewrite handleEvents_cons.
    replace (b + Z.of_nat (S (length evs)))
      with ((b + 1) + Z.of_nat (length evs)) by lia.
    apply IH; [lia|lia| |apply NoDup_ids_step; [lia|exact Hev|exact Hs]].
    eapply Forall_impl; [exact Hevs|]. simpl.
    intros ev'. apply remoteIdsDistinctBelow_mono. lia.
Qed.

(** An error message, once set, is replaced but not removed by anything
    other than closing the modal. *)
Lemma error_step ev s :
  ev ≠ CloseModal → error s ≠ EmptyString →
  error (handleEvent ev s) ≠ EmptyString.
Proof.
  intros Hev He. destruct ev as [|u|u|f v| | |num|o]; cbn [handleEvent].
  - exact He.
  - unfold dispatch, handleOpenModal. by destruct (User.id u =? 0).
  - exact He.
  - by rewrite dispatch_handleFormChange.
  - rewrite dispatch_handleSave. destruct (editing s); [exact He|].
    destruct (anyFieldEmpty (formData s)) eqn:Hv.
    + by rewrite dispatch_handleAddUser_invalid.
    + by rewrite dispatch_handleAddUser_valid.
  - contradiction.
  - exact He.
  - rewrite commit_fetchSettled.
    by destruct (axios_get o ≫= formattedUsers).
Qed.
End Invariants.

(** X7.  Whatever happens to the mounted component, the mode flag and the
    draft agree: when the form is in Edit mode the draft carries a record
    id other than 0, and in Add mode the draft's id is blank.  So Save
    runs the Edit handler exactly when the draft names a record. *)
Theorem mode_and_draft_agree (evs : list Event) :
  let s := handleEvents evs initialState in
  (editing s = true → ∃ i, FormData.id (formData s) = Some i ∧ i ≠ 0)
  ∧ (editing s = false → FormData.id (formData s) = None)
  ∧ (is_Some (FormData.id (formData s)) →
     dispatch handleSave s = dispatch handleEditUser s).
Proof.
  intros s. assert (Hm : modeAgrees s) by by apply modeAgrees_steps.
  unfold modeAgrees in Hm. rewrite dispatch_handleSave.
  destruct (editing s); repeat split; try done.
  intros [i Hi]. congruence.
Qed.

Lemma mode_and_draft_agree_witness :
  ∃ i, FormData.id
         (formData (handleEvents
                      [FetchSettles twoItems;
                       ClickEdit (User.mk 6 "Mrs." "Dennis" "k@j.info" "General");
                       ChangeInput lastNameInput "Schulist"]
                      initialState)) = Some i
       ∧ i ≠ 0.
Proof.
  apply (proj1 (mode_and_draft_agree
                  [FetchSettles twoItems;
                   ClickEdit (User.mk 6 "Mrs." "Dennis" "k@j.info" "General");
                   ChangeInput lastNameInput "Schulist"])).
  reflexivity.
Defined.

(** X8.  Unique ids are an invariant of the component while ids stay in
    the range where the next id is exact: from a Store with unique ids
    below a bound [b > 0], a sequence of [n] events with [b + n <= 2^53]
    (button clicks, input changes, saves, closings, page clicks, and reads
    that deliver distinct ids below [b]) never makes two records share an
    id, and the ids stay below [b + n]. *)
Theorem ids_stay_unique (b : Z) (evs : list Event) (s : State) :
  0 < b → b + Z.of_nat (length evs) ≤ 2 ^ 53 →
  Forall (remoteIdsDistinctBelow b) evs →
  NoDup (ids (users s)) → idsBelow b (users s) →
  NoDup (ids (users (handleEvents evs s)))
  ∧ idsBelow (b + Z.of_nat (length evs)) (users (handleEvents evs s)).
Proof.
  intros Hpos Hb Hevs Hnd Hlt. by apply NoDup_ids_steps.
Qed.

Lemma ids_stay_unique_witness :
  NoDup (ids (users (handleEvents
                       [FetchSettles twoItems; ClickAddUser;
                        ChangeInput firstNameInput "A";
                        ChangeInput lastNameInput "B";
                        ChangeInput emailInput "a@b.com";
                        ChangeInput departmentInput "X"; ClickSave;
                        ClickDelete (User.mk 1 "Leanne" "Graham" "l@april.biz"
                                             "General")]
                       initialState))).
Proof.
  refine (proj1 (ids_stay_unique 100 _ initialState _ _ _ _ _)).
  - lia.
  - vm_compute. discriminate.
  - apply Forall_cons. split; [|repeat constructor].
    unfold remoteIdsDistinctBelow, twoItems. cbn. split.
    + apply (bool_decide_unpack _). vm_compute. exact I.
    + repeat constructor.
  - constructor.
  - constructor.
Defined.

(** X9.  An error message that is shown stays shown (possibly with another
    text) until the modal is closed: no successful Add, Edit, Delete, page
    change or settled read clears it. *)
Theorem error_stays_until_close (evs : list Event) (s : State) :
  error s ≠ EmptyString → CloseModal ∉ evs →
  error (handleEvents evs s) ≠ EmptyString.
Proof.
  revert s. induction evs as [|ev evs IH]; intros s He Hno; [exact He|].
  rewrite handleEvents_cons. apply IH.
  - apply error_step; [|exact He]. intros ->. apply Hno. left.
  - intros Hin. apply Hno. by right.
Qed.

Lemma error_stays_until_close_witness :
  error (handleEvents [ChangeInput departmentInput "X"; ClickSave]
                      (dispatch handleAddUser incompleteDraft))
    ≠ EmptyString
  ∧ users (handleEvents [ChangeInput departmentInput "X"; ClickSave]
                        (dispatch handleAddUser incompleteDraft))
    = [User.mk 1 "Ann" "Lee" "ann@x.org" "Ops"; User.mk 2 "A" "B" "a@b.com" "X"].
Proof.
  split; [|reflexivity].
  apply error_stays_until_close.
  - discriminate.
  - intros Hin. apply list_elem_of_In in Hin. simpl in Hin.
    destruct Hin as [H|[H|[]]]; discriminate.
Defined.

(** ** How the Store operations compose *)

Section Compose.
Implicit Types (s : State) (fd : FormData.t) (us : list User.t).

Lemma maxId_upper_records us : Forall (fun u => User.id u ≤ maxId us) us.
Proof.
  pose proof (maxId_upper us) as H. unfold ids in H.
  by rewrite Forall_fmap in H.
Qed.

Lemma keepOthers_snoc_fresh us fd :
  maxId us < 2 ^ 53 →
  keepOthers (newId us) (us ++ [draftRecord (newId us) fd]) = us.
Proof.
  intros Hlt.
  rewrite filter_app, filter_cons_False, filter_nil, app_nil_r;
    [|intros H; by apply H].
  apply keepOthers_all. rewrite newId_exact by exact Hlt.
  eapply Forall_impl; [apply maxId_upper_records|].
  simpl. intros u Hu. lia.
Qed.

Lemma keepOthers_editRecord i fd us :
  keepOthers i (editRecord fd <$> us) = editRecord fd <$> keepOthers i us.
Proof.
  induction us as [|u us IH]; [reflexivity|].
  rewrite fmap_cons, !filter_cons, editRecord_id, IH.
  by destruct (decide (User.id u ≠ i)).
Qed.

Lemma keepOthers_comm i j us :
  keepOthers i (keepOthers j us) = keepOthers j (keepOthers i us).
Proof. rewrite !list_filter_filter. apply list_filter_iff. tauto. Qed.
End Compose.

(** X10.  In a Store whose ids are all below 2^53, deleting the record a
    valid Add has just appended gives back the Store as it was before the
    Add, and the next valid Add is given the same id again. *)
Theorem add_then_delete_restores (fd fd' : FormData.t) (s : State) :
  anyFieldEmpty fd = false → anyFieldEmpty fd' = false →
  idsBelow (2 ^ 53) (users s) →
  let i := newId (users s) in
  i = maxId (users s) + 1
  ∧ ids (users (Add fd s)) = ids (users s) ++ [i]
  ∧ users (dispatch (handleDeleteUser i) (Add fd s)) = users s
  ∧ users (Add fd' (dispatch (handleDeleteUser i) (Add fd s))) =
      users s ++ [draftRecord i fd'].
Proof.
  intros Hv Hv' Hlt i.
  pose proof (maxId_below (2 ^ 53) (users s) ltac:(lia) Hlt) as Hmax.
  assert (Hdel : users (dispatch (handleDeleteUser i) (Add fd s)) = users s).
  { rewrite dispatch_handleDeleteUser. cbn [users].
    rewrite users_Add by exact Hv. by apply keepOthers_snoc_fresh. }
  split; [by apply newId_exact|]. split; [|split; [exact Hdel|]].
  - rewrite users_Add by exact Hv. apply ids_snoc.
  - rewrite users_Add by exact Hv'. by rewrite Hdel.
Qed.

Lemma add_then_delete_restores_witness :
  users (dispatch (handleDeleteUser 3)
           (Add (FormData.mk None "A" "B" "a@b.com" "X") scenarioStore))
  = users scenarioStore.
Proof.
  refine (proj1 (proj2 (proj2 (add_then_delete_restores
                         (FormData.mk None "A" "B" "a@b.com" "X")
                         (FormData.mk None "C" "D" "c@d.com" "Y")
                         scenarioStore eq_refl eq_refl _)))).
  repeat constructor.
Defined.

(** X11.  Deletes can be done in either order, and a Delete before a Save
    in Edit mode gives the same state as the Delete after it. *)
Theorem delete_commutes (i j : Z) (s : State) :
  dispatch (handleDeleteUser i) (dispatch (handleDeleteUser j) s) =
    dispatch (handleDeleteUser j) (dispatch (handleDeleteUser i) s)
  ∧ dispatch (handleDeleteUser i) (dispatch handleEditUser s) =
    dispatch handleEditUser (dispatch (handleDeleteUser i) s).
Proof.
  rewrite ?dispatch_handleDeleteUser, ?dispatch_handleEditUser,
    ?dispatch_handleDeleteUser.
  cbn [users showModal formData error editing currentPage].
  split; f_equal; [apply keepOthers_comm|apply keepOthers_editRecord].
Qed.

(** ** What the table and the pagination control show *)

Section Pages.
Implicit Types (s : State) (p : Z).

Lemma clamp_index_window (len start : Z) :
  Js.clamp_index len (start + 5) - Js.clamp_index len start ≤ 5.
Proof.
  unfold Js.clamp_index.
  destruct (Z.ltb_spec (start + 5) 0), (Z.ltb_spec start 0); lia.
Qed.

Lemma slice_sublist {A : Type} (l : list A) (a b : Z) :
  sublist (Js.slice l a b) l.
Proof.
  unfold Js.slice. etransitivity; [apply sublist_take|apply sublist_drop].
Qed.

Lemma pageNumbers_seqZ s : pageNumbers s = seqZ 1 (pageCount s).
Proof.
  unfold pageNumbers, Js.keys. rewrite <- (fmap_add_seqZ 1 0).
  apply list_fmap_ext. intros; lia.
Qed.

Lemma elem_of_pageNumbers p s : p ∈ pageNumbers s ↔ 1 ≤ p ≤ pageCount s.
Proof. rewrite pageNumbers_seqZ, elem_of_seqZ. lia. Qed.

Lemma last_drop {A : Type} (l : list A) (n : nat) :
  (n < length l)%nat → last (drop n l) = last l.
Proof.
  intros Hn. rewrite !last_lookup, lookup_drop, length_drop. f_equal. lia.
Qed.

Lemma currentPage_Add fd s :
  anyFieldEmpty fd = false → currentPage (Add fd s) = currentPage s.
Proof.
  intros Hv. rewrite Add_unfold, dispatch_handleAddUser_valid by exact Hv.
  reflexivity.
Qed.
End Pages.

(** X12.  Whatever the current page is, the table shows at most five rows,
    they are records of the Store in the Store's order, and when the ids
    of the Store are unique so are the keys of the rows. *)
Theorem paginateUsers_bounded (s : State) :
  (length (paginateUsers s) ≤ 5)%nat
  ∧ sublist (paginateUsers s) (users s)
  ∧ (NoDup (ids (users s)) → NoDup (ids (paginateUsers s))).
Proof.
  split; [|split].
  - unfold paginateUsers, usersPerPage, Js.slice. rewrite length_take.
    pose proof (clamp_index_window (Z.of_nat (length (users s)))
                  ((currentPage s - 1) * 5)).
    lia.
  - apply slice_sublist.
  - intros Hnd. eapply sublist_NoDup; [exact Hnd|].
    unfold ids. apply fmap_sublist, slice_sublist.
Qed.

Lemma paginateUsers_bounded_witness :
  NoDup (ids (paginateUsers sixOnPageTwo)).
Proof.
  apply (proj2 (proj2 (paginateUsers_bounded sixOnPageTwo))).
  apply (bool_decide_unpack _). vm_compute. exact I.
Defined.

(** X13.  Every page the pagination control offers is filled: selecting
    it shows at least one row, every page before the last shows exactly
    five, and the last row of the last page is the last record of the
    Store. *)
Theorem offered_pages_filled (p : Z) (s : State) :
  p ∈ pageNumbers s →
  let page := paginateUsers (dispatch (handleSelectPage p) s) in
  (1 ≤ length page ≤ 5)%nat
  ∧ (p < pageCount s → length page = 5%nat)
  ∧ (p = pageCount s → last page = last (users s)).
Proof.
  intros Hp page. apply elem_of_pageNumbers in Hp.
  pose proof (pageCount_bounds s) as Hpc. subst page.
  rewrite paginateUsers_select by lia.
  rewrite length_take, length_drop. split; [lia|]. split; [lia|].
  intros ->. rewrite take_ge by (rewrite length_drop; lia).
  apply last_drop. lia.
Qed.

Lemma offered_pages_filled_witness :
  length (paginateUsers (dispatch (handleSelectPage 2) twelveOnPageTwo)) = 5%nat
  ∧ last (paginateUsers (dispatch (handleSelectPage 3) twelveOnPageTwo))
    = Some (User.mk 12 "N" "M" "n@m.org" "Ops").
Proof.
  assert (H3 : ∀ p, 1 ≤ p ≤ 3 → p ∈ pageNumbers twelveOnPageTwo).
  { intros p Hp. change (pageNumbers twelveOnPageTwo) with (seqZ 1 3).
    apply elem_of_seqZ. lia. }
  split.
  - apply (proj1 (proj2 (offered_pages_filled 2 twelveOnPageTwo
                           (H3 2 ltac:(lia))))).
    vm_compute. reflexivity.
  - apply (proj2 (proj2 (offered_pages_filled 3 twelveOnPageTwo
                           (H3 3 ltac:(lia))))).
    reflexivity.
Defined.

(** X14.  The pagination control lists the pages 1 .. pageCount once each,
    in order; an item is marked active exactly when its number is the
    current page, so when the list has shrunk below the current page no
    item is active. *)
Theorem pagination_active_item (s : State) :
  (paginationItems s).*1 = seqZ 1 (pageCount s)
  ∧ NoDup (paginationItems s).*1
  ∧ (∀ p b, (p, b) ∈ paginationItems s ↔
            1 ≤ p ≤ pageCount s ∧ b = (p =? currentPage s))
  ∧ (pageCount s < currentPage s →
     Forall (fun item => item.2 = false) (paginationItems s)).
Proof.
  assert (Hfst : (paginationItems s).*1 = seqZ 1 (pageCount s)).
  { unfold paginationItems, Js.keys. rewrite <- list_fmap_compose.
    rewrite <- (fmap_add_seqZ 1 0). apply list_fmap_ext.
    intros _ num _. cbn. lia. }
  assert (Hin : ∀ p b, (p, b) ∈ paginationItems s ↔
                       1 ≤ p ≤ pageCount s ∧ b = (p =? currentPage s)).
  { intros p b. unfold paginationItems, Js.keys. rewrite list_elem_of_fmap.
    split.
    - intros (num & [= -> ->] & Hnum). apply elem_of_seqZ in Hnum.
      split; [lia|reflexivity].
    - intros [Hp ->]. exists (p - 1). split.
      + f_equal; [lia|]. f_equal. lia.
      + apply elem_of_seqZ. lia. }
  split; [exact Hfst|]. split; [rewrite Hfst; apply NoDup_seqZ|].
  split; [exact Hin|].
  intros Hpast. apply Forall_forall. intros [p b] Hitem.
  apply Hin in Hitem as [Hp ->]. cbn. apply Z.eqb_neq. lia.
Qed.

Lemma pagination_active_item_witness :
  Forall (fun item => item.2 = false)
         (paginationItems (dispatch (handleDeleteUser 6) sixOnPageTwo)).
Proof.
  apply (proj2 (proj2 (proj2 (pagination_active_item
           (dispatch (handleDeleteUser 6) sixOnPageTwo))))).
  vm_compute. reflexivity.
Defined.

(** X15.  A valid Add leaves the current page where it is and puts the
    new record at the end of the last page; when the ids of the Store are
    all below 2^53, the table of any earlier page does not show the record
    that was just added. *)
Theorem add_lands_on_last_page (fd : FormData.t) (s : State) :
  anyFieldEmpty fd = false →
  let s' := Add fd s in
  let new := draftRecord (newId (users s)) fd in
  currentPage s' = currentPage s
  ∧ last (paginateUsers (dispatch (handleSelectPage (pageCount s')) s'))
    = Some new
  ∧ (idsBelow (2 ^ 53) (users s) → 1 ≤ currentPage s < pageCount s' →
     new ∉ paginateUsers s').
Proof.
  intros Hv s' new.
  assert (Hus : users s' = users s ++ [new]) by by apply users_Add.
  assert (Hcp : currentPage s' = currentPage s) by by apply currentPage_Add.
  pose proof (pageCount_bounds s') as Hpc.
  assert (Hlen : length (users s') = S (length (users s))).
  { rewrite Hus, length_app. simpl. lia. }
  split; [exact Hcp|]. split.
  - assert (Hin : pageCount s' ∈ pageNumbers s').
    { apply elem_of_pageNumbers. lia. }
    rewrite paginateUsers_select by lia.
    rewrite take_ge by (rewrite length_drop; lia).
    rewrite last_drop by lia. rewrite Hus. apply last_snoc.
  - intros Hlt Hearly Hshown.
    pose proof (maxId_below (2 ^ 53) (users s) ltac:(lia) Hlt) as Hmax.
    assert (Hslice : paginateUsers s' =
              take 5 (drop (Z.to_nat ((currentPage s - 1) * 5)) (users s))).
    { unfold paginateUsers, usersPerPage. rewrite Hcp.
      rewrite slice_window by lia. rewrite Hus.
      rewrite drop_app_le by lia. rewrite take_app_le; [reflexivity|].
      rewrite length_drop. lia. }
    rewrite Hslice in Hshown.
    assert (Hle : Forall (fun u => User.id u ≤ maxId (users s))
                    (take 5 (drop (Z.to_nat ((currentPage s - 1) * 5))
                                  (users s))))
      by apply Forall_take, Forall_drop, maxId_upper_records.
    rewrite Forall_forall in Hle. specialize (Hle _ Hshown).
    subst new. simpl in Hle. rewrite newId_exact in Hle by exact Hmax. lia.
Qed.

Lemma add_lands_on_last_page_witness :
  draftRecord 7 (FormData.mk None "A" "B" "a@b.com" "X")
    ∉ paginateUsers (Add (FormData.mk None "A" "B" "a@b.com" "X")
                         (dispatch (handleSelectPage 1) sixOnPageTwo)).
Proof.
  apply (proj2 (proj2 (add_lands_on_last_page
                         (FormData.mk None "A" "B" "a@b.com" "X")
                         (dispatch (handleSelectPage 1) sixOnPageTwo)
                         eq_refl))).
  - repeat constructor.
  - vm_compute. split; [discriminate|reflexivity].
Defined.
